(** * The simulation-run database of simulation/model/eval.py

    A shallow embedding of [Model_Database], [Model_With_F] and
    [Model_With_F_And_DF]: the run chains kept under a spinup directory,
    the decision whether a run satisfies requested spinup options, the
    creation of new runs, the factor ids of partial-derivative runs and
    the merging and splitting of named data sets.

    Numbers.  Years are Python integers ([Z]).  Parameters, typical values
    and step sizes are IEEE 754 doubles, Rocq's primitive floats: the
    factor ids compute with them.  Tolerances are floats that are only
    compared and passed on; they are kept as the exact rationals they
    denote ([Q]), which is what the comparisons of finite floats compute.
    The external solver, the batch system and the parameter index store
    are outside the file: what they return is a field of the model object
    or a section variable. *)

From Stdlib Require Import QArith Qround Qabs Lqa.
From Stdlib Require Import Floats.
From stdpp Require Import gmap strings list fin_maps sorting.

Local Open Scope Z_scope.

(** ** Directories *)

(** A run directory is [os.path.join(spinup_dir, DATABASE_RUN_DIRNAME.format(i))];
    [util.pattern.get_int_in_string] reads [i] back from the name.  The
    format constant is not part of the sources, so a run directory is kept
    as its parent and its index.  Every other directory is its path, and
    [TmpDir n] is the [n]-th directory handed out by [tempfile.mkdtemp]. *)
Inductive dir :=
| RunDir (spinup_dir : string) (run_index : nat)
| Dir (path : string)
| TmpDir (n : nat).

#[global] Instance dir_eq_dec : EqDecision dir.
Proof. solve_decision. Defined.

Definition dir_encode (d : dir) : (string * nat) + (string + nat) :=
  match d with
  | RunDir s i => inl (s, i)
  | Dir p => inr (inl p)
  | TmpDir n => inr (inr n)
  end.

Definition dir_decode (x : (string * nat) + (string + nat)) : dir :=
  match x with
  | inl (s, i) => RunDir s i
  | inr (inl p) => Dir p
  | inr (inr n) => TmpDir n
  end.

#[global] Instance dir_countable : Countable dir.
Proof.
  refine (inj_countable' dir_encode dir_decode _).
  intros []; reflexivity.
Defined.

(** A file is named by its directory and its file name; [os.path.dirname]
    is the first projection. *)
Definition file : Type := dir * string.

Definition dirname (f : file) : dir := fst f.

(** ** Options *)

Record SpinupOptions := {
  years : Z;
  tolerance : Q;
  combination : string;
  match_type : string
}.

Record DerivativeOptions := {
  derivative_years : Z;
  step_size : float;
  accuracy_order : Z;
  parameters_typical_values : list float
}.

Record ModelOptions := {
  model_name : string;
  time_step : Z;
  parameters : list float;
  parameters_bounds : list (float * float);
  tracers : list string;
  use_constant_concentrations : bool;
  spinup_options : SpinupOptions;
  derivative_options : DerivativeOptions
}.

(** ** Jobs *)

(** [util.batch.universal.system.NodeSetup], by the arguments it is built
    from here. *)
Record NodeSetup := {
  nodes_max : option Z;
  memory : option Z
}.

(** A job setup is a [dict]; the keys read here are [name] and
    [nodes_setup].  A key may be absent ([None]); the value of
    [nodes_setup] may be Python's [None] ([Some None]). *)
Record JobOptions := {
  name : option string;
  nodes_setup : option (option NodeSetup)
}.

(** [self.job_options] as [__init__] leaves it: a job setup for each of the
    three kinds. *)
Record JobOptionsCollection := {
  spinup_job_options : JobOptions;
  derivative_job_options : JobOptions;
  trajectory_job_options : JobOptions
}.

(** What [Metos3D_Job.write_job_file] is given. *)
Record JobConfig := {
  job_model_name : string;
  job_model_parameters : list float;
  job_years : Z;
  job_tolerance : Q;
  job_time_step : Z;
  job_initial_constant_concentrations : option (list Q);
  job_tracer_input_files : option (list file);
  job_total_concentration_factor : float;
  job_write_trajectory : bool;
  job_job_options : option JobOptions
}.

(** The record a job keeps in its directory, with the values its read
    accessors return. *)
Record Job := {
  job_config : JobConfig;
  last_year : Z;
  last_tolerance : Q;
  tracer_output_files : list file;
  read_only_input : bool;
  read_only_output : bool;
  finished : bool
}.


(** ** The world: file system, batch system, warnings *)

Inductive warning :=
| MaxSpinupYearsReached (run_dir : dir) (tolerance : Q) (max_years : Z)
| TmpDirNotRemoved (d : dir).

Record World := {
  dirs : gset dir;
  jobs : gmap dir Job;
  submitted : list dir;
  waited : list dir;
  warnings : list warning;
  next_tmp : nat;
  removed : list dir
}.

Inductive exn :=
| ValueError (msg : string)
| JobOptionFileError (d : dir)
| FileExistsError (d : dir)
| AssertionError
| TypeError
| IndexError
| KeyError
| RecursionError.

Inductive result (A : Type) :=
| Ok (a : A)
| Raise (e : exn).
Arguments Ok {A} a.
Arguments Raise {A} e.

(** Computations that read and change the world and may raise. *)
Definition M (A : Type) : Type := World -> result (A * World).

Definition ret {A} (a : A) : M A := fun w => Ok (a, w).

Definition raise {A} (e : exn) : M A := fun _ => Raise e.

Definition bind {A B} (m : M A) (k : A -> M B) : M B :=
  fun w => match m w with
           | Ok (a, w') => k a w'
           | Raise e => Raise e
           end.

Notation "x <- m ;; k" := (bind m (fun x => k))
  (at level 100, m at next level, right associativity).
Notation "m ;;; k" := (bind m (fun _ => k))
  (at level 100, right associativity).

Definition get_world : M World := fun w => Ok (w, w).

Definition modify (f : World -> World) : M unit := fun w => Ok (tt, f w).

Definition assert_ (b : bool) : M unit :=
  if b then ret tt else raise AssertionError.

Fixpoint forM {A B} (l : list A) (f : A -> M B) : M (list B) :=
  match l with
  | [] => ret []
  | a :: l' => b <- f a ;; bs <- forM l' f ;; ret (b :: bs)
  end.

(** [try: m except JobOptionFileError: h]. *)
Definition try_JobOptionFileError {A} (m : M A) (h : M A) : M A :=
  fun w => match m w with
           | Raise (JobOptionFileError _) => h w
           | r => r
           end.

(** *** World updates *)

Definition set_dirs (f : gset dir -> gset dir) (w : World) : World :=
  {| dirs := f (dirs w); jobs := jobs w; submitted := submitted w;
     waited := waited w; warnings := warnings w; next_tmp := next_tmp w;
     removed := removed w |}.

Definition set_jobs (f : gmap dir Job -> gmap dir Job) (w : World) : World :=
  {| dirs := dirs w; jobs := f (jobs w); submitted := submitted w;
     waited := waited w; warnings := warnings w; next_tmp := next_tmp w;
     removed := removed w |}.

Definition add_submitted (d : dir) (w : World) : World :=
  {| dirs := dirs w; jobs := jobs w; submitted := submitted w ++ [d];
     waited := waited w; warnings := warnings w; next_tmp := next_tmp w;
     removed := removed w |}.

Definition add_waited (d : dir) (w : World) : World :=
  {| dirs := dirs w; jobs := jobs w; submitted := submitted w;
     waited := waited w ++ [d]; warnings := warnings w; next_tmp := next_tmp w;
     removed := removed w |}.

Definition add_warning (x : warning) (w : World) : World :=
  {| dirs := dirs w; jobs := jobs w; submitted := submitted w;
     waited := waited w; warnings := warnings w ++ [x]; next_tmp := next_tmp w;
     removed := removed w |}.

Definition bump_tmp (w : World) : World :=
  {| dirs := dirs w; jobs := jobs w; submitted := submitted w;
     waited := waited w; warnings := warnings w; next_tmp := S (next_tmp w);
     removed := removed w |}.

Definition warn (x : warning) : M unit := modify (add_warning x).

(** Modelled from the spec: [simulation.model.job] is outside the sources.
    [with Metos3D_Job(d, force_load=True) as job] gives the record kept in
    [d], and a missing record is the error the specification calls
    JobMetadataError, [JobOptionFileError] in the source. *)
Definition load_job (d : dir) : M Job :=
  fun w => match jobs w !! d with
           | Some j => Ok (j, w)
           | None => Raise (JobOptionFileError d)
           end.

(** Modelled from the spec: [job.model_tracer_input_files] of a record
    written without tracer input files is a malformed record for a reader
    that asks for them. *)
Definition model_tracer_input_files (d : dir) (j : Job) : M (list file) :=
  match job_tracer_input_files (job_config j) with
  | Some files => ret files
  | None => raise (JobOptionFileError d)
  end.

(** ** Model_Database *)

(** The attributes of the model object the functions below read.
    [spinup_dir] is the directory the parameter index store resolves for
    the model's parameters, [closest_spinup_dir_candidate] is
    [spinup_dir_with_index(closest_index)] ([None] when the store has no
    closest index), [derivative_dirname] is the derivative directory as a
    function of the spinup years (a format template in the source), and
    [default_match_type] is the match type of a [SpinupOptions] built
    without one.  [model_spinup_max_years],
    [start_from_closest_parameters] and [JOB_MEMORY_GB] come from
    [simulation.model.constants]. *)
Record Model_Database := {
  model_options : ModelOptions;
  job_options : JobOptionsCollection;
  JOB_MEMORY_GB : Z;
  model_spinup_max_years : Z;
  start_from_closest_parameters : bool;
  spinup_dir : string;
  closest_spinup_dir_candidate : option string;
  derivative_dirname : Z -> string;
  initial_constant_concentrations : list Q;
  initial_concentration_files : list file;
  default_match_type : string
}.

(** The argument [job_options] of [__init__], when it is given: a dict with
    one of the three kinds among its keys is a collection of job setups, a
    dict without one is the job setup of the spinup runs. *)
Inductive job_options_argument :=
| JobSetup (job_options : JobOptions)
| JobSetups (spinup derivative trajectory : option JobOptions).

(** The part of [__init__] that fills [self.job_options]. *)
Definition init_job_options (JOB_MEMORY_GB : Z)
    (job_options : option job_options_argument) : JobOptionsCollection :=
  let empty := {| name := None; nodes_setup := None |} in
  let job_options := default (JobSetup empty) job_options in
  let '(spinup, derivative, trajectory) :=
    match job_options with
    | JobSetup job_options => (Some job_options, None, None)
    | JobSetups None None None => (Some empty, None, None)
    | JobSetups spinup derivative trajectory => (spinup, derivative, trajectory)
    end in
  let spinup := default empty spinup in
  let default_name := default EmptyString (name spinup) in
  let spinup :=
    {| name := Some (default "spinup" (name spinup));
       nodes_setup := nodes_setup spinup |} in
  let derivative :=
    default {| name := None; nodes_setup := nodes_setup spinup |} derivative in
  let derivative :=
    {| name := Some (default ("derivative" +:+ default_name) (name derivative));
       nodes_setup := nodes_setup derivative |} in
  let trajectory :=
    default {| name := None;
               nodes_setup :=
                 Some (Some {| nodes_max := Some 1; memory := Some JOB_MEMORY_GB |}) |}
      trajectory in
  let trajectory :=
    {| name := Some (default ("trajectory" +:+ default_name) (name trajectory));
       nodes_setup := nodes_setup trajectory |} in
  {| spinup_job_options := spinup; derivative_job_options := derivative;
     trajectory_job_options := trajectory |}.

(** *** run dirs *)

(** The indices of the run directories found under [search_path]; a search
    path that cannot be listed gives the empty list, as in the source. *)
Definition run_index_in (search_path : string) (d : dir) : option nat :=
  match d with
  | RunDir s i => if decide (s = search_path) then Some i else None
  | _ => None
  end.

Definition run_dirs (search_path : string) (w : World) : list nat :=
  omap (run_index_in search_path) (elements (dirs w)).

Definition last_run_dir (search_path : string) : M (option dir) :=
  w <- get_world ;;
  let last_run_index := Z.of_nat (length (run_dirs search_path w)) - 1 in
  if 0 <=? last_run_index then
    let last_run_dir := RunDir search_path (Z.to_nat last_run_index) in
    load_job last_run_dir ;;;
    ret (Some last_run_dir)
  else ret None.

Definition previous_run_dir (run_dir : dir) : option dir :=
  match run_dir with
  | RunDir spinup_dir (S i) => Some (RunDir spinup_dir i)
  | _ => None
  end.

(** [os.makedirs(d, exist_ok=...)] *)
Definition makedirs (d : dir) (exist_ok : bool) : M unit :=
  w <- get_world ;;
  if decide (d ∈ dirs w) then
    if exist_ok then ret tt else raise (FileExistsError d)
  else modify (set_dirs (union {[d]})).

Definition make_new_run_dir (output_path : string) : M dir :=
  makedirs (Dir output_path) true ;;;
  w <- get_world ;;
  let next_run_index := length (run_dirs output_path w) in
  let run_dir := RunDir output_path next_run_index in
  makedirs run_dir false ;;;
  ret run_dir.

(** *** access run properties *)

(** The loop of [real_years]: the years of the run with index [i] and,
    with [include_previous_runs], of the runs before it. *)
Fixpoint real_years_loop (sd : string) (i : nat) (include_previous_runs : bool)
    (real_years : Z) : M Z :=
  job <- load_job (RunDir sd i) ;;
  let real_years := real_years + last_year job in
  if include_previous_runs then
    match i with
    | O => ret real_years
    | S i' => real_years_loop sd i' include_previous_runs real_years
    end
  else ret real_years.

Definition real_years (run_dir : dir) (include_previous_runs : bool) : M Z :=
  match run_dir with
  | RunDir sd i => real_years_loop sd i include_previous_runs 0
  | _ =>
    (* no run index in the name: [previous_run_dir] gives no directory *)
    job <- load_job run_dir ;; ret (0 + last_year job)
  end.

Definition real_tolerance (run_dir : dir) : M Q :=
  job <- load_job run_dir ;; ret (last_tolerance job).

Definition dq : string := String (Ascii.ascii_of_nat 34) EmptyString.

Definition is_run_matching_options (self : Model_Database) (run_dir : option dir)
    (spinup_options : SpinupOptions) (include_previous_runs : bool) : M bool :=
  match run_dir with
  | Some run_dir =>
    let model_spinup_max_years := model_spinup_max_years self in
    let years := years spinup_options in
    let tolerance := tolerance spinup_options in
    let combination := combination spinup_options in
    run_years <- real_years run_dir include_previous_runs ;;
    run_tolerance <- real_tolerance run_dir ;;
    if String.eqb combination "and" then
      let is_matching :=
        ((years <=? run_years) && Qle_bool run_tolerance tolerance)
        || (model_spinup_max_years <=? run_years) in
      (if is_matching && negb (Qle_bool run_tolerance tolerance)
       then warn (MaxSpinupYearsReached run_dir tolerance model_spinup_max_years)
       else ret tt) ;;;
      ret is_matching
    else if String.eqb combination "or" then
      ret ((years <=? run_years) || Qle_bool run_tolerance tolerance)
    else
      raise (ValueError ("Combination " +:+ dq +:+ combination +:+ dq +:+ " unknown."))
  | None => ret false
  end.

(** ** Running jobs *)

Definition make_read_only_input (d : dir) (read_only : bool) : M unit :=
  if read_only then
    modify (set_jobs (alter (fun j =>
      {| job_config := job_config j; last_year := last_year j;
         last_tolerance := last_tolerance j;
         tracer_output_files := tracer_output_files j;
         read_only_input := true; read_only_output := read_only_output j;
         finished := finished j |}) d))
  else ret tt.

Definition make_read_only_output (d : dir) (read_only : bool) : M unit :=
  if read_only then
    modify (set_jobs (alter (fun j =>
      {| job_config := job_config j; last_year := last_year j;
         last_tolerance := last_tolerance j;
         tracer_output_files := tracer_output_files j;
         read_only_input := read_only_input j; read_only_output := true;
         finished := finished j |}) d))
  else ret tt.

(** [job.wait_until_finished()]: the caller is suspended until the batch
    system reports the job as finished. *)
Definition job_wait_until_finished (d : dir) : M unit :=
  modify (set_jobs (alter (fun j =>
      {| job_config := job_config j; last_year := last_year j;
         last_tolerance := last_tolerance j;
         tracer_output_files := tracer_output_files j;
         read_only_input := read_only_input j;
         read_only_output := read_only_output j;
         finished := true |}) d)) ;;;
  modify (add_waited d).

Definition wait_until_run_finished (run_dir : dir) (make_read_only : bool) : M unit :=
  load_job run_dir ;;;
  make_read_only_input run_dir make_read_only ;;;
  job_wait_until_finished run_dir ;;;
  make_read_only_output run_dir make_read_only.

Definition output_file (d : dir) (tracer : string) : file :=
  (d, tracer +:+ "_output.petsc").

Section Runs.

(** The external solver: the last year and the tolerance a job reaches,
    from the world it is started in, its directory and its configuration. *)
Variable solver : World -> dir -> JobConfig -> Z * Q.

Variable self : Model_Database.

(** [self.job_options[kind]], copied; a kind [__init__] has not filled
    is a missing key. *)
Definition job_options_for_kind (kind : string) : M JobOptions :=
  if String.eqb kind "spinup" then ret (spinup_job_options (job_options self))
  else if String.eqb kind "derivative" then ret (derivative_job_options (job_options self))
  else if String.eqb kind "trajectory" then ret (trajectory_job_options (job_options self))
  else raise KeyError.

(** [job.write_job_file(...)] followed by [job.start()]. *)
Definition write_and_start (output_path : dir) (config : JobConfig) : M unit :=
  w <- get_world ;;
  let r := solver w output_path config in
  modify (set_dirs (union {[output_path]})) ;;;
  modify (set_jobs (insert output_path
    {| job_config := config; last_year := fst r; last_tolerance := snd r;
       tracer_output_files :=
         map (output_file output_path) (tracers (model_options self));
       read_only_input := false; read_only_output := false;
       finished := false |})) ;;;
  modify (add_submitted output_path).

Definition start_run (model_parameters : list float) (output_path : dir) (years : Z)
    (tolerance : Q) (job_options : option JobOptions) (write_trajectory : bool)
    (initial_constant_concentrations : option (list Q))
    (tracer_input_files : option (list file)) (total_concentration_factor : float)
    (make_read_only : bool) (wait_until_finished : bool) : M unit :=
  write_and_start output_path
    {| job_model_name := model_name (model_options self);
       job_model_parameters := model_parameters;
       job_years := years;
       job_tolerance := tolerance;
       job_time_step := time_step (model_options self);
       job_initial_constant_concentrations := initial_constant_concentrations;
       job_tracer_input_files := tracer_input_files;
       job_total_concentration_factor := total_concentration_factor;
       job_write_trajectory := write_trajectory;
       job_job_options := job_options |} ;;;
  make_read_only_input output_path make_read_only ;;;
  if wait_until_finished then wait_until_run_finished output_path make_read_only
  else ret tt.

(** *** closest parameter set *)

Definition closest_spinup_dir : M string :=
  match closest_spinup_dir_candidate self with
  | Some sd =>
    l <- last_run_dir sd ;;
    match l with
    | Some _ => ret sd
    | None => raise TypeError
    end
  | None => raise TypeError
  end.

(** *** matching run *)

(** The loop of the match type [equal_or_nearest_better], entered with
    [run_dir] the run of index [i]: step back while the previous run
    matches. *)
Fixpoint nearest_better_loop (sd : string) (i : nat)
    (spinup_options : SpinupOptions) : M dir :=
  match i with
  | O =>
    b <- is_run_matching_options self (previous_run_dir (RunDir sd O)) spinup_options true ;;
    ret (RunDir sd O)
  | S i' =>
    b <- is_run_matching_options self (previous_run_dir (RunDir sd (S i'))) spinup_options true ;;
    if b then nearest_better_loop sd i' spinup_options
    else ret (RunDir sd (S i'))
  end.

Definition SpinupOptions_of (years : Z) (tolerance : Q) (combination : string) :=
  {| years := years; tolerance := tolerance; combination := combination;
     match_type := default_match_type self |}.

(** The first steps of the branch that creates a new run: with no run of
    its own and [start_from_closest_parameters], the last run of the
    closest parameter set is taken; the run to start from, if any, is
    waited for. *)
Definition finish_last_run (last_run_dir_ : option dir) : M (option dir) :=
  last_run_dir_ <-
    (match last_run_dir_ with
     | None =>
       if start_from_closest_parameters self then
         closest_spinup_dir <- closest_spinup_dir ;;
         last_run_dir closest_spinup_dir
       else ret None
     | Some _ => ret last_run_dir_
     end) ;;
  (match last_run_dir_ with
   | Some d => wait_until_run_finished d true
   | None => ret tt
   end) ;;;
  ret last_run_dir_.

(** One call of [matching_run_dir]; [matching_run_dir_rec] stands for the
    calls it makes to itself. *)
Definition matching_run_dir_body (matching_run_dir_rec : SpinupOptions -> M dir)
    (spinup_options : SpinupOptions) : M dir :=
  let spinup_dir := spinup_dir self in
  last_run_dir_ <- last_run_dir spinup_dir ;;
  is_matching <- is_run_matching_options self last_run_dir_ spinup_options true ;;
  if is_matching then
    match last_run_dir_ with
    | Some (RunDir sd i) =>
      if String.eqb (match_type spinup_options) "equal_or_nearest_better"
      then nearest_better_loop sd i spinup_options
      else ret (RunDir sd i)
    | Some run_dir => ret run_dir
    | None => raise TypeError
    end
  else
    last_run_dir_ <- finish_last_run last_run_dir_ ;;
    let years := years spinup_options in
    let tolerance := tolerance spinup_options in
    let combination := combination spinup_options in
    if String.eqb combination "or" then
      run_dir <- make_new_run_dir spinup_dir ;;
      (match last_run_dir_ with
       | Some last_run_dir_ =>
         last_years <- real_years last_run_dir_ true ;;
         let years := years - last_years in
         let parameters := parameters (model_options self) in
         job <- load_job last_run_dir_ ;;
         let concentration_files := tracer_output_files job in
         job_options <- job_options_for_kind "spinup" ;;
         start_run parameters run_dir years tolerance
           (Some job_options) false None
           (Some concentration_files) 1 true true
       | None =>
         let parameters := parameters (model_options self) in
         if use_constant_concentrations (model_options self) then
           job_options <- job_options_for_kind "spinup" ;;
           start_run parameters run_dir years tolerance
             (Some job_options) false
             (Some (initial_constant_concentrations self)) None 1 true true
         else
           job_options <- job_options_for_kind "spinup" ;;
           start_run parameters run_dir years tolerance
             (Some job_options) false None
             (Some (initial_concentration_files self)) 1 true true
       end) ;;;
      ret run_dir
    else
      assert_ (String.eqb combination "and") ;;;
      matching_run_dir_rec (SpinupOptions_of years 0 "or") ;;;
      matching_run_dir_rec
        (SpinupOptions_of (model_spinup_max_years self) tolerance "or").

(** [matching_run_dir] with a bound on the depth of its calls to itself. *)
Fixpoint matching_run_dir (depth : nat) (spinup_options : SpinupOptions) : M dir :=
  match depth with
  | O => raise RecursionError
  | S depth' => matching_run_dir_body (matching_run_dir depth') spinup_options
  end.

End Runs.

(** ** Run chains *)

(** The run chain of a spinup directory up to the run of index [i]: the
    job records of the runs [0..i], in order, when all of them load. *)
Fixpoint chain (w : World) (sd : string) (i : nat) : option (list Job) :=
  match i with
  | O => j ← jobs w !! RunDir sd O; Some [j]
  | S i' => js ← chain w sd i'; j ← jobs w !! RunDir sd (S i'); Some (js ++ [j])
  end.

Definition total_years (js : list Job) : Z :=
  foldr (fun j acc => last_year j + acc) 0 js.

Definition achieved_tolerance (js : list Job) : Q :=
  match last js with
  | Some j => last_tolerance j
  | None => 0%Q
  end.

(** ** Example worlds *)

Definition example_config : JobConfig :=
  {| job_model_name := "MITgcm-PO4-DOP"; job_model_parameters := [];
     job_years := 0; job_tolerance := 0; job_time_step := 1;
     job_initial_constant_concentrations := None;
     job_tracer_input_files := None; job_total_concentration_factor := 1;
     job_write_trajectory := false; job_job_options := None |}.

Definition example_job (y : Z) (t : Q) : Job :=
  {| job_config := example_config; last_year := y; last_tolerance := t;
     tracer_output_files := []; read_only_input := true;
     read_only_output := true; finished := true |}.

(** A world whose only content is one chain of finished runs under [sd],
    given by the years and the tolerance of each run. *)
Definition chain_world (sd : string) (runs : list (Z * Q)) : World :=
  {| dirs := list_to_set (imap (fun i _ => RunDir sd i) runs);
     jobs := list_to_map (imap (fun i r => (RunDir sd i, example_job (fst r) (snd r))) runs);
     submitted := []; waited := []; warnings := []; next_tmp := 0;
     removed := [] |}.

Definition example_options : ModelOptions :=
  {| model_name := "MITgcm-PO4-DOP"; time_step := 1; parameters := [];
     parameters_bounds := []; tracers := ["po4"; "dop"];
     use_constant_concentrations := true;
     spinup_options := {| years := 1000; tolerance := 1 # 10000;
                          combination := "and"; match_type := "exact" |};
     derivative_options := {| derivative_years := 100; step_size := 0.01;
                              accuracy_order := 1;
                              parameters_typical_values := [] |} |}.

Definition example_model : Model_Database :=
  {| model_options := example_options;
     job_options := init_job_options 4 None;
     JOB_MEMORY_GB := 4;
     model_spinup_max_years := 5000;
     start_from_closest_parameters := false;
     spinup_dir := "spinup";
     closest_spinup_dir_candidate := None;
     derivative_dirname := fun _ => "derivative";
     initial_constant_concentrations := [];
     initial_concentration_files := [];
     default_match_type := "exact" |}.


(** ** The combination rules, as the specification words them *)

Definition matches_or (o : SpinupOptions) (run_years : Z) (run_tolerance : Q) : Prop :=
  years o <= run_years \/ (run_tolerance <= tolerance o)%Q.

Definition matches_and (max_years : Z) (o : SpinupOptions) (run_years : Z)
    (run_tolerance : Q) : Prop :=
  (years o <= run_years /\ (run_tolerance <= tolerance o)%Q)
  \/ max_years <= run_years.

Definition combination_unknown (c : string) : exn :=
  ValueError ("Combination " +:+ dq +:+ c +:+ dq +:+ " unknown.").

(** The run directories under [sd] are exactly those of the indices below
    [n]: index equals position. *)
Definition contiguous (sd : string) (w : World) (n : nat) : Prop :=
  forall i : nat, RunDir sd i ∈ dirs w <-> (i < n)%nat.

Definition unknown_options : SpinupOptions :=
  {| years := 1; tolerance := 0; combination := "xor"; match_type := "exact" |}.

(** The combination rule on the records of a chain, as a boolean. *)
Definition rule_holds (self : Model_Database) (o : SpinupOptions) (js : list Job) : bool :=
  if String.eqb (combination o) "and" then
    ((years o <=? total_years js) && Qle_bool (achieved_tolerance js) (tolerance o))
    || (model_spinup_max_years self <=? total_years js)
  else if String.eqb (combination o) "or" then
    (years o <=? total_years js) || Qle_bool (achieved_tolerance js) (tolerance o)
  else false.

(** Two worlds with the same directories, job records and batch history;
    they may differ in the warnings emitted. *)
Definition same_files (w w' : World) : Prop :=
  dirs w' = dirs w /\ jobs w' = jobs w /\ submitted w' = submitted w
  /\ waited w' = waited w.

(** A solver that reaches exactly the years and the tolerance it is asked for. *)
Definition ideal_solver (w : World) (d : dir) (c : JobConfig) : Z * Q :=
  (job_years c, job_tolerance c).

Definition nearest_better_options (y : Z) (t : Q) (c : string) : SpinupOptions :=
  {| years := y; tolerance := t; combination := c;
     match_type := "equal_or_nearest_better" |}.

(** A chain whose tolerance gets worse after its first run. *)
Definition uneven_chain : World :=
  chain_world "spinup" [(10, 1 # 100000); (10, 1 # 1000); (100, 1 # 1000)].

(** Whether the run in [d], with its previous runs, matches [o] in [w]:
    the outcome of [is_run_matching_options]. *)
Definition run_matches (self : Model_Database) (w : World) (d : dir)
    (o : SpinupOptions) (b : bool) : Prop :=
  exists w', is_run_matching_options self (Some d) o true w = Ok (b, w').

(** The two sub-requests an [and] request is resolved by. *)
Definition years_alone (self : Model_Database) (o : SpinupOptions) : SpinupOptions :=
  SpinupOptions_of self (years o) 0 "or".

Definition tolerance_alone (self : Model_Database) (o : SpinupOptions) : SpinupOptions :=
  SpinupOptions_of self (model_spinup_max_years self) (tolerance o) "or".

Definition empty_world : World :=
  {| dirs := ∅; jobs := ∅; submitted := []; waited := []; warnings := [];
     next_tmp := 0; removed := [] |}.

(** A solver that runs the requested years and always stops at tolerance 1e-3. *)
Definition slow_solver (w : World) (d : dir) (c : JobConfig) : Z * Q :=
  (job_years c, 1 # 1000).

(** ** Model_With_F: merging and splitting data sets *)

(** A Python [dict] with string keys, in insertion order: assigning to a
    key that is present replaces its value in place, assigning to a new
    key appends it. *)
Definition dict (V : Type) : Type := list (string * V).

Fixpoint dict_set {V} (k : string) (v : V) (d : dict V) : dict V :=
  match d with
  | [] => [(k, v)]
  | (k', v') :: d' =>
    if decide (k = k') then (k, v) :: d' else (k', v') :: dict_set k v d'
  end.

Fixpoint dict_get {V} (k : string) (d : dict V) : option V :=
  match d with
  | [] => None
  | (k', v') :: d' => if decide (k = k') then Some v' else dict_get k d'
  end.

Definition keys {V} (d : dict V) : list string := map fst d.

Definition values {V} (d : dict V) : list V := map snd d.

(** Pure computations that may raise. *)
Definition rbind {A B} (m : result A) (k : A -> result B) : result B :=
  match m with
  | Ok a => k a
  | Raise e => Raise e
  end.

Section DataSets.

(** The rows of an array: numbers for values, coordinate rows for points.
    Arrays are concatenated and sliced along their first axis. *)
Variable A : Type.

(** The value kept for a tracer: an array, or a mapping of data set names
    to arrays (the values with an [items] attribute). *)
Inductive tracer_value :=
| Array (a : list A)
| DataSets (m : dict (list A)).

(** [slice(start_index, end_index)]. *)
Definition slice : Type := nat * nat.

(** [a[slice(start, stop)]] for an array and non-negative bounds. *)
Definition getitem (a : list A) (s : slice) : list A :=
  take (snd s - fst s) (drop (fst s) a).

(** The inner loop of [_merge_data_sets] over the data sets of one tracer. *)
Fixpoint merge_data_set_loop (items : dict (list A)) (start_index : nat)
    (data_set_split_dict : dict slice) (data_set_values_list : list (list A))
    : nat * dict slice * list (list A) :=
  match items with
  | [] => (start_index, data_set_split_dict, data_set_values_list)
  | (data_set_name, data_set_value) :: items' =>
    let data_set_values_list := data_set_values_list ++ [data_set_value] in
    let end_index := (start_index + length data_set_value)%nat in
    let data_set_split_slice := (start_index, end_index) in
    let data_set_split_dict :=
      dict_set data_set_name data_set_split_slice data_set_split_dict in
    merge_data_set_loop items' end_index data_set_split_dict data_set_values_list
  end.

(** [np.concatenate] raises on an empty sequence of arrays. *)
Definition np_concatenate (arrays : list (list A)) : result (list A) :=
  match arrays with
  | [] => Raise (ValueError "need at least one array to concatenate")
  | _ => Ok (concat arrays)
  end.

Fixpoint merge_loop (items : dict tracer_value) (tracer_merged_dict : dict (list A))
    (tracer_split_dict : dict (dict slice))
    : result (dict (list A) * dict (dict slice)) :=
  match items with
  | [] => Ok (tracer_merged_dict, tracer_split_dict)
  | (tracer, Array a) :: items' =>
    merge_loop items' (dict_set tracer a tracer_merged_dict) tracer_split_dict
  | (tracer, DataSets m) :: items' =>
    let '(end_index, data_set_split_dict, data_set_values_list) :=
      merge_data_set_loop m 0 [] [] in
    let tracer_split_dict := dict_set tracer data_set_split_dict tracer_split_dict in
    rbind (np_concatenate data_set_values_list) (fun tracer_value =>
    if (length tracer_value =? end_index)%nat then
      merge_loop items' (dict_set tracer tracer_value tracer_merged_dict)
        tracer_split_dict
    else Raise AssertionError)
  end.

Definition _merge_data_sets (tracer_dict : dict tracer_value)
    : result (dict (list A) * dict (dict slice)) :=
  merge_loop tracer_dict [] [].

Fixpoint split_data_set_loop (items : dict slice) (tracer_value : list A)
    (data_set_dict : dict (list A)) : dict (list A) :=
  match items with
  | [] => data_set_dict
  | (data_set_name, data_set_split_slice) :: items' =>
    split_data_set_loop items' tracer_value
      (dict_set data_set_name (getitem tracer_value data_set_split_slice)
         data_set_dict)
  end.

Fixpoint split_loop (items : dict (list A)) (tracer_split_dict : dict (dict slice))
    (tracer_splitted_dict : dict tracer_value) : result (dict tracer_value) :=
  match items with
  | [] => Ok tracer_splitted_dict
  | (tracer, tracer_value) :: items' =>
    match dict_get tracer tracer_split_dict with
    | None =>
      split_loop items' tracer_split_dict
        (dict_set tracer (Array tracer_value) tracer_splitted_dict)
    | Some data_set_split_dict =>
      let data_set_dict := split_data_set_loop data_set_split_dict tracer_value [] in
      if (sum_list (map length (values data_set_dict)) =? length tracer_value)%nat then
        split_loop items' tracer_split_dict
          (dict_set tracer (DataSets data_set_dict) tracer_splitted_dict)
      else Raise AssertionError
    end
  end.

Definition _split_data_sets (tracer_dict : dict (list A))
    (tracer_split_dict : dict (dict slice)) : result (dict tracer_value) :=
  split_loop tracer_dict tracer_split_dict [].

(** A mapping as a Python [dict] holds it: no key twice, on both levels. *)
Definition well_keyed (m : dict tracer_value) : Prop :=
  NoDup (keys m)
  /\ forall t ds, (t, DataSets ds) ∈ m -> NoDup (keys ds).

Definition data_sets_nonempty (m : dict tracer_value) : Prop :=
  forall t ds, (t, DataSets ds) ∈ m -> ds <> [].

(** What merging is meant to produce: the offsets of the data sets laid one
    after the other from [start], the concatenated array of each tracer,
    and the offsets of the tracers that hold data sets. *)
Fixpoint slices_from (start : nat) (ds : dict (list A)) : dict slice :=
  match ds with
  | [] => []
  | (name, v) :: ds' =>
    (name, (start, (start + length v)%nat)) :: slices_from (start + length v) ds'
  end.

Definition merged_value (v : tracer_value) : list A :=
  match v with
  | Array a => a
  | DataSets ds => concat (values ds)
  end.

Definition merged_of (m : dict tracer_value) : dict (list A) :=
  map (fun tv => (fst tv, merged_value (snd tv))) m.

Definition split_of (m : dict tracer_value) : dict (dict slice) :=
  omap (fun tv => match snd tv with
                  | Array _ => None
                  | DataSets ds => Some (fst tv, slices_from 0 ds)
                  end) m.

End DataSets.

Arguments Array {A} a.
Arguments DataSets {A} m.

(** Points of two data sets for one tracer and a plain array for another. *)
Definition example_points : dict (tracer_value Z) :=
  [("po4", DataSets [("woa", [1; 2]); ("wod", [3])]); ("dop", Array [4; 5])].

(** A tracer with a mapping of data sets that holds no data set. *)
Definition no_data_sets : dict (tracer_value Z) := [("po4", DataSets [])].

(** ** Model_With_F_And_DF: factor ids of partial-derivative runs *)

(** [DATABASE_PARTIAL_DERIVATIVE_FACTOR_ID_INT] and [..._FLOAT] are format
    templates with the fields [index] and [h_factor], joined by a separator;
    the three constants are outside the sources.  A factor id is kept as
    the template chosen with its two arguments, the joined string as the
    list of the factor ids. *)
Inductive factor_id :=
| FactorIdInt (index : Z) (h_factor : Z)
| FactorIdFloat (index : Z) (h_factor : float).

Definition factor_index (f : factor_id) : Z :=
  match f with
  | FactorIdInt i _ => i
  | FactorIdFloat i _ => i
  end.

(** *** Floats

    NumPy's [float64] and Python's [float] are IEEE 754 doubles, and so
    are Rocq's primitive floats: [-], [*], [/] and [==] below are the
    operations of the source.  What Python and NumPy add to them is
    written out on the sign, mantissa and exponent of a double. *)

(** [float(n)] for a Python integer [n]: the double nearest to it. *)
Definition float_of_int (n : Z) : float :=
  SF2Prim (binary_normalize prec emax n 0 false).

(** The integer nearest to [m / 2**k], halves to the even neighbour. *)
Definition round_half_even (m k : Z) : Z :=
  let q := Z.shiftr m k in
  match m - Z.shiftl q k ?= Z.shiftl 1 (k - 1) with
  | Lt => q
  | Gt => q + 1
  | Eq => if Z.even q then q else q + 1
  end.

(** [np.round]: to the nearest integer, halves to the even neighbour; the
    sign is kept, and infinities and NaN are returned as they are. *)
Definition np_round (x : float) : float :=
  match Prim2SF x with
  | S754_finite s m e =>
    if 0 <=? e then x
    else
      let n := round_half_even (Z.pos m) (- e) in
      SF2Prim (binary_normalize prec emax (if s then - n else n) 0 s)
  | _ => x
  end.

(** [x.is_integer()] *)
Definition is_integer (x : float) : bool :=
  match Prim2SF x with
  | S754_zero _ => true
  | S754_finite _ m e => (0 <=? e) || (Z.land (Z.pos m) (Z.ones (- e)) =? 0)
  | _ => false
  end.

(** [int(x)] for a finite [x]: the fraction is cut off. *)
Definition int (x : float) : Z :=
  match Prim2SF x with
  | S754_finite s m e =>
    let a := Z.shiftl (Z.pos m) e in
    if s then - a else a
  | _ => 0
  end.

Section FactorIds.

(** [DATABASE_PARTIAL_DERIVATIVE_FACTOR_ID_FLOAT_PRECISION] *)
Variable PRECISION : nat.

Variable partial_derivative_parameters_undisturbed : list float.
Variable partial_derivative_parameters_typical_values : list float.
Variable step_size : float.

(** [np.where(a != b)[0]] from position [i] on. *)
Fixpoint where_different (i : nat) (a b : list float) : list nat :=
  match a, b with
  | x :: a', y :: b' =>
    if (x =? y)%float then where_different (S i) a' b'
    else i :: where_different (S i) a' b'
  | _, _ => []
  end.

Definition changed_parameters_indices (partial_derivative_parameters : list float)
    : list nat :=
  where_different 0 partial_derivative_parameters
    partial_derivative_parameters_undisturbed.

(** The step multiplier of a component before rounding. *)
Definition h_factor_of (partial_derivative_parameters : list float)
    (parameter_index : nat) : float :=
  let h := (nth parameter_index partial_derivative_parameters 0
            - nth parameter_index partial_derivative_parameters_undisturbed 0)%float in
  let h_typical :=
    (nth parameter_index partial_derivative_parameters_typical_values 0
     * step_size)%float in
  (h / h_typical)%float.

(** [h_factor * 10**PRECISION], the product that is rounded. *)
Definition scaled (h_factor : float) : float :=
  (h_factor * float_of_int (10 ^ Z.of_nat PRECISION))%float.

(** [np.round(h_factor * 10**PRECISION) / 10**PRECISION] *)
Definition quantize (h_factor : float) : float :=
  (np_round (scaled h_factor) / float_of_int (10 ^ Z.of_nat PRECISION))%float.

Definition factor_id_of (partial_derivative_parameters : list float)
    (parameter_index : nat) : factor_id :=
  let h_factor := quantize (h_factor_of partial_derivative_parameters parameter_index) in
  if is_integer h_factor
  then FactorIdInt (Z.of_nat parameter_index) (int h_factor)
  else FactorIdFloat (Z.of_nat parameter_index) h_factor.

Definition factor_ids (partial_derivative_parameters : list float) : list factor_id :=
  match changed_parameters_indices partial_derivative_parameters with
  | [] => [FactorIdInt (-1) 0]
  | changed_parameters_indices =>
    map (factor_id_of partial_derivative_parameters) changed_parameters_indices
  end.

End FactorIds.

(** ** Model_With_F and Model_With_F_And_DF: values and derivatives *)

(** [util.io.fs.remove_recursively(d, not_exist_okay=True, exclude_dir=...)]:
    what [d] holds is removed, and [d] itself unless it is excluded. *)
Definition remove_recursively (d : dir) (exclude_dir : bool) : M unit :=
  modify (fun w =>
    {| dirs := if exclude_dir then dirs w else dirs w ∖ {[d]};
       jobs := delete d (jobs w); submitted := submitted w; waited := waited w;
       warnings := warnings w; next_tmp := next_tmp w;
       removed := removed w ++ [d] |}).

(** [tempfile.mkdtemp]: a directory that did not exist before. *)
Definition mkdtemp : M dir :=
  w <- get_world ;;
  let d := TmpDir (next_tmp w) in
  modify bump_tmp ;;;
  modify (set_dirs (union {[d]})) ;;;
  ret d.

Definition tracer_unsupported (tracer model_name : string) : exn :=
  ValueError ("Tracer " +:+ tracer +:+ " is not supported for model "
              +:+ model_name +:+ ".").

(** The order [sorted] puts strings in. *)
Definition string_le (a b : string) : Prop := String.leb a b = true.

#[global] Instance string_le_dec (a b : string) : Decision (string_le a b).
Proof. unfold string_le. apply _. Defined.

(** Equality of two tuples of floats: [==] on the components, which are
    fresh scalars of the array each time a tuple is built from it. *)
Fixpoint tuple_eqb (a b : list float) : bool :=
  match a, b with
  | [], [] => true
  | x :: a', y :: b' => (x =? y)%float && tuple_eqb a' b'
  | _, _ => false
  end.

(** A Python [dict] whose keys are tuples of floats. *)
Fixpoint tuple_dict_set {V} (k : list float) (v : V) (d : list (list float * V))
    : list (list float * V) :=
  match d with
  | [] => [(k, v)]
  | (k', v') :: d' =>
    if tuple_eqb k k' then (k', v) :: d'
    else (k', v') :: tuple_dict_set k v d'
  end.

Fixpoint tuple_dict_get {V} (k : list float) (d : list (list float * V)) : option V :=
  match d with
  | [] => None
  | (k', v') :: d' => if tuple_eqb k k' then Some v' else tuple_dict_get k d'
  end.

Section Values.

Variable solver : World -> dir -> JobConfig -> Z * Q.

Variable self : Model_Database.

(** The entries of an array. *)
Variable V : Type.

(** [simulation.model.data.load_trajectories_to_map(path, tracer, time_dim_desired)] *)
Variable load_trajectories_to_map : dir -> string -> Z -> M (list V).

(** [util.math.finite_differences]: the points at which the function is
    evaluated, in the order of evaluation, and the derivative computed
    from the values at these points, for a derivative order, an accuracy
    order, the undisturbed point, the typical values, the bounds and the
    step size. *)
Variable finite_differences_points :
  Z -> Z -> list float -> list float -> list (float * float) -> float ->
  list (list float).
Variable finite_differences_value :
  Z -> Z -> list float -> list float -> list (float * float) -> float ->
  list (list V) -> list (list V).

(** The directory name of a partial derivative run
    ([DATABASE_PARTIAL_DERIVATIVE_DIRNAME] with the joined factor ids). *)
Variable partial_derivative_dirname : list factor_id -> string.

(** [DATABASE_PARTIAL_DERIVATIVE_FACTOR_ID_FLOAT_PRECISION] *)
Variable PRECISION : nat.

Definition check_tracers (tracers_ : option (list string)) : M (list string) :=
  match tracers_ with
  | Some tracers_ =>
    forM tracers_ (fun tracer =>
      if bool_decide (tracer ∈ tracers (model_options self)) then ret tt
      else raise (tracer_unsupported tracer (model_name (model_options self)))) ;;;
    ret tracers_
  | None =>
    ret (merge_sort string_le (tracers (model_options self)))
  end.

Fixpoint load_tracers (trajectory_load_function : dir -> string -> M (list V))
    (trajectory_output_dir : dir) (tracers_ : list string)
    (trajectory_values : dict (list V)) : M (dict (list V)) :=
  match tracers_ with
  | [] => ret trajectory_values
  | tracer :: tracers' =>
    trajectory_values_tracer <- trajectory_load_function trajectory_output_dir tracer ;;
    load_tracers trajectory_load_function trajectory_output_dir tracers'
      (dict_set tracer trajectory_values_tracer trajectory_values)
  end.

Definition _trajectory_with_load_function
    (trajectory_load_function : dir -> string -> M (list V)) (run_dir : dir)
    (model_parameters : list float) (tracers_ : option (list string))
    : M (dict (list V)) :=
  tracers_ <- check_tracers tracers_ ;;
  trajectory_values <-
    (if (0 <? length tracers_)%nat then
       trajectory_dir <- mkdtemp ;;
       job <- load_job run_dir ;;
       let run_tracer_output_files := tracer_output_files job in
       job_options <- job_options_for_kind self "trajectory" ;;
       start_run solver self model_parameters trajectory_dir 1 0
         (Some job_options) true None
         (Some run_tracer_output_files) 1 false true ;;;
       trajectory_values <-
         load_tracers trajectory_load_function trajectory_dir tracers_ [] ;;
       remove_recursively trajectory_dir false ;;;
       ret trajectory_values
     else ret []) ;;
  assert_ (length trajectory_values =? length tracers_)%nat ;;;
  ret trajectory_values.

Definition _trajectory_load_function_for_all (time_dim : Z)
    : dir -> string -> M (list V) :=
  fun trajectory_path tracer => load_trajectories_to_map trajectory_path tracer time_dim.

(** The property [run_dir]. *)
Definition run_dir : M dir :=
  matching_run_dir solver self 2 (spinup_options (model_options self)).

Definition _f (trajectory_load_function : dir -> string -> M (list V))
    (tracers_ : option (list string)) : M (dict (list V)) :=
  tracers_ <- check_tracers tracers_ ;;
  matching_run_dir <- run_dir ;;
  let model_parameters := parameters (model_options self) in
  f <- _trajectory_with_load_function trajectory_load_function matching_run_dir
         model_parameters (Some tracers_) ;;
  assert_ (length f =? length tracers_)%nat ;;;
  ret f.

Definition f_all (time_dim : Z) (tracers_ : option (list string)) : M (dict (list V)) :=
  _f (_trajectory_load_function_for_all time_dim) tracers_.

(** *** derivatives *)

(** The property [derivative_dir]; [real_years()] without a run directory
    takes the property [run_dir]. *)
Definition derivative_dir : M string :=
  run_dir_ <- run_dir ;;
  spinup_real_years <- real_years run_dir_ true ;;
  ret (derivative_dirname self spinup_real_years).

Definition path_join (a b : string) : string := a +:+ "/" +:+ b.

Section PartialDerivatives.

(** What [_df] has computed when it defines its two local functions. *)
Variable include_total_concentration : bool.
Variable parameters_len : nat.
Variable partial_derivative_parameters_undisturbed : list float.
Variable partial_derivative_parameters_typical_values : list float.
Variable derivative_dir_ : string.
Variable spinup_matching_run_dir : dir.

Definition partial_derivative_spinup_years : Z :=
  derivative_years (derivative_options (model_options self)).

Definition partial_derivative_options : SpinupOptions :=
  SpinupOptions_of self partial_derivative_spinup_years 0 "or".

Definition convert_partial_derivative_parameters_to_start_run_parameters
    (partial_derivative_parameters : list float) : M (list float * float) :=
  assert_ (length partial_derivative_parameters =? parameters_len)%nat ;;;
  if include_total_concentration then
    ret (removelast partial_derivative_parameters,
         List.last partial_derivative_parameters 0%float)
  else ret (partial_derivative_parameters, 1%float).

Definition partial_derivative_dir_of (partial_derivative_parameters : list float) : dir :=
  Dir (path_join derivative_dir_
         (partial_derivative_dirname
            (factor_ids PRECISION partial_derivative_parameters_undisturbed
               partial_derivative_parameters_typical_values
               (step_size (derivative_options (model_options self)))
               partial_derivative_parameters))).

(** The check of the partial derivative directory: whether it holds a run
    that matches the derivative options and was started from a spinup run
    that matches the spinup options. *)
Definition check_partial_derivative_dir (partial_derivative_dir : dir) : M bool :=
  probed <-
    try_JobOptionFileError
      (job <- load_job partial_derivative_dir ;;
       partial_derivative_spinup_run_tracer_input_files <-
         model_tracer_input_files partial_derivative_dir job ;;
       ret (Some partial_derivative_spinup_run_tracer_input_files))
      (ret None) ;;
  match probed with
  | None => ret false
  | Some partial_derivative_spinup_run_tracer_input_files =>
    let partial_derivative_spinup_run_dir :=
      map dirname partial_derivative_spinup_run_tracer_input_files in
    assert_ (forallb (fun a => bool_decide (hd (Dir EmptyString) partial_derivative_spinup_run_dir = a))
               (tl partial_derivative_spinup_run_dir)) ;;;
    match partial_derivative_spinup_run_dir with
    | [] => raise IndexError
    | partial_derivative_spinup_run_dir :: _ =>
      a <- is_run_matching_options self (Some partial_derivative_dir)
             partial_derivative_options false ;;
      if a then
        is_run_matching_options self (Some partial_derivative_spinup_run_dir)
          (spinup_options (model_options self)) true
      else ret false
    end
  end.

(** [NodeSetup(memory=JOB_MEMORY_GB)] *)
Definition best_nodes_setup : NodeSetup :=
  {| nodes_max := None; memory := Some (JOB_MEMORY_GB self) |}.

(** [if job_options['nodes_setup'] is None: job_options['nodes_setup'] = ...]:
    a job setup without the key [nodes_setup] is a [KeyError]. *)
Definition set_best_nodes_setup (job_options : JobOptions) : M JobOptions :=
  match nodes_setup job_options with
  | None => raise KeyError
  | Some None =>
    ret {| name := name job_options; nodes_setup := Some (Some best_nodes_setup) |}
  | Some (Some _) => ret job_options
  end.

(** [job_options] and [partial_derivative_dirs] are local variables of
    [_df] that the function updates; they are passed in and returned with
    the result. *)
Definition start_partial_derivative_run (job_options : JobOptions)
    (partial_derivative_dirs : list (list float * dir))
    (partial_derivative_parameters : list float)
    : M (Z * JobOptions * list (list float * dir)) :=
  let partial_derivative_dir := partial_derivative_dir_of partial_derivative_parameters in
  makedirs partial_derivative_dir true ;;;
  matching_options <- check_partial_derivative_dir partial_derivative_dir ;;
  job_options <-
    (if negb matching_options then
       remove_recursively partial_derivative_dir true ;;;
       job_options <- set_best_nodes_setup job_options ;;
       let tracer_input_files :=
         map (output_file spinup_matching_run_dir) (tracers (model_options self)) in
       start_run_parameters <-
         convert_partial_derivative_parameters_to_start_run_parameters
           partial_derivative_parameters ;;
       let partial_derivative_model_parameters := fst start_run_parameters in
       let total_concentration_factor := snd start_run_parameters in
       start_run solver self partial_derivative_model_parameters partial_derivative_dir
         partial_derivative_spinup_years 0 (Some job_options) false None
         (Some tracer_input_files) total_concentration_factor true false ;;;
       ret job_options
     else ret job_options) ;;
  ret (0, job_options,
       tuple_dict_set partial_derivative_parameters partial_derivative_dir
         partial_derivative_dirs).

(** The stop index of each trajectory, after [start_index]. *)
Fixpoint stop_indices (start_index : nat) (trajectory_list : list (list V)) : list nat :=
  match trajectory_list with
  | [] => []
  | trajectory :: trajectory_list' =>
    let stop_index := (start_index + length trajectory)%nat in
    stop_index :: stop_indices stop_index trajectory_list'
  end.

(** [tracer_start_stop_indices] is the other local variable of [_df] that
    is updated. *)
Definition get_partial_derivative_run_value
    (trajectory_load_function : dir -> string -> M (list V))
    (tracers_ : list string) (partial_derivative_dirs : list (list float * dir))
    (tracer_start_stop_indices : list nat)
    (partial_derivative_parameters : list float) : M (list V * list nat) :=
  match tuple_dict_get partial_derivative_parameters partial_derivative_dirs with
  | None => raise KeyError
  | Some partial_derivative_dir =>
    wait_until_run_finished partial_derivative_dir true ;;;
    start_run_parameters <-
      convert_partial_derivative_parameters_to_start_run_parameters
        partial_derivative_parameters ;;
    let partial_derivative_model_parameters := fst start_run_parameters in
    trajectory_dict <-
      _trajectory_with_load_function trajectory_load_function partial_derivative_dir
        partial_derivative_model_parameters None ;;
    trajectory_list <-
      forM tracers_ (fun tracer =>
        match dict_get tracer trajectory_dict with
        | Some trajectory => ret trajectory
        | None => raise KeyError
        end) ;;
    let tracer_start_stop_indices :=
      if (length tracer_start_stop_indices =? 1)%nat
      then tracer_start_stop_indices ++ stop_indices 0 trajectory_list
      else tracer_start_stop_indices in
    ret (concat trajectory_list, tracer_start_stop_indices)
  end.

Fixpoint start_all (job_options : JobOptions) (points : list (list float))
    (partial_derivative_dirs : list (list float * dir))
    : M (list (list float * dir)) :=
  match points with
  | [] => ret partial_derivative_dirs
  | x :: points' =>
    r <- start_partial_derivative_run job_options partial_derivative_dirs x ;;
    start_all (snd (fst r)) points' (snd r)
  end.

Fixpoint get_all (trajectory_load_function : dir -> string -> M (list V))
    (tracers_ : list string) (partial_derivative_dirs : list (list float * dir))
    (points : list (list float)) (tracer_start_stop_indices : list nat)
    : M (list (list V) * list nat) :=
  match points with
  | [] => ret ([], tracer_start_stop_indices)
  | x :: points' =>
    r <- get_partial_derivative_run_value trajectory_load_function tracers_
           partial_derivative_dirs tracer_start_stop_indices x ;;
    rs <- get_all trajectory_load_function tracers_ partial_derivative_dirs
            points' (snd r) ;;
    ret (fst r :: fst rs, snd rs)
  end.

End PartialDerivatives.

(** [df[tracer] = df_concatenated[start:stop]] for the tracers in turn. *)
Fixpoint unpack_concatenation (tracers_ : list string)
    (tracer_start_stop_indices : list nat) (df_concatenated : list (list V))
    (df : dict (list (list V))) : M (dict (list (list V))) :=
  match tracers_, tracer_start_stop_indices with
  | [], _ => ret df
  | tracer :: tracers', start :: (stop :: _) as indices' =>
    unpack_concatenation tracers' indices' df_concatenated
      (dict_set tracer (take (stop - start) (drop start df_concatenated)) df)
  | _ :: _, _ => raise IndexError
  end.

(** The two passes of the loop over [start_partial_derivative_run] and
    [get_partial_derivative_run_value] are [start_all] and [get_all] over
    the points of the finite-difference utility; what the utility computes
    from the zeros of the first pass is overwritten by the second. *)
Definition _df (trajectory_load_function : dir -> string -> M (list V))
    (tracers_ : option (list string)) (include_total_concentration : bool)
    (derivative_order : option Z) (accuracy_order_ : option Z)
    : M (dict (list (list V))) :=
  let derivative_order := default 1 derivative_order in
  assert_ ((derivative_order =? 1) || (derivative_order =? 2)) ;;;
  let accuracy_order_ :=
    default (accuracy_order (derivative_options (model_options self))) accuracy_order_ in
  let step_size := step_size (derivative_options (model_options self)) in
  let spinup_options := spinup_options (model_options self) in
  tracers_ <- check_tracers tracers_ ;;
  if (length tracers_ =? 0)%nat then ret []
  else
    let model_parameter := parameters (model_options self) in
    let parameters_len := length (parameters (model_options self)) in
    let parameters_len :=
      if include_total_concentration then (parameters_len + 1)%nat else parameters_len in
    let bounds := parameters_bounds (model_options self) in
    let typical_values :=
      parameters_typical_values (derivative_options (model_options self)) in
    let bounds :=
      if include_total_concentration then bounds ++ [(0, infinity)%float] else bounds in
    let typical_values :=
      if include_total_concentration then typical_values ++ [1%float] else typical_values in
    let undisturbed :=
      if include_total_concentration then model_parameter ++ [1%float]
      else model_parameter in
    derivative_dir_ <- derivative_dir ;;
    spinup_matching_run_dir <- matching_run_dir solver self 2 spinup_options ;;
    job_options <- job_options_for_kind self "derivative" ;;
    let points :=
      finite_differences_points derivative_order accuracy_order_ undisturbed
        typical_values bounds step_size in
    partial_derivative_dirs <-
      start_all include_total_concentration parameters_len undisturbed typical_values
        derivative_dir_ spinup_matching_run_dir job_options points [] ;;
    r <- get_all include_total_concentration parameters_len trajectory_load_function
           tracers_ partial_derivative_dirs points [0%nat] ;;
    let df_concatenated :=
      finite_differences_value derivative_order accuracy_order_ undisturbed
        typical_values bounds step_size (fst r) in
    let tracer_start_stop_indices := snd r in
    assert_ (length tracer_start_stop_indices =? length tracers_ + 1)%nat ;;;
    assert_ (max_list tracer_start_stop_indices =? length df_concatenated)%nat ;;;
    df <- unpack_concatenation tracers_ tracer_start_stop_indices df_concatenated [] ;;
    assert_ (length df =? length tracers_)%nat ;;;
    ret df.

Definition df_all (time_dim : Z) (tracers_ : option (list string))
    (include_total_concentration : bool) (derivative_order : option Z)
    (accuracy_order_ : option Z) : M (dict (list (list V))) :=
  tracers_ <- check_tracers tracers_ ;;
  _df (_trajectory_load_function_for_all time_dim) (Some tracers_)
    include_total_concentration derivative_order accuracy_order_.

End Values.

(** A loader for worlds without trajectory files to read. *)
Definition no_trajectories (d : dir) (tracer : string) (time_dim : Z) : M (list Z) :=
  ret [].

(** The example model with a request that one run can satisfy. *)
Definition or_model : Model_Database :=
  {| model_options :=
       {| model_name := "MITgcm-PO4-DOP"; time_step := 1; parameters := [];
          parameters_bounds := []; tracers := ["po4"; "dop"];
          use_constant_concentrations := true;
          spinup_options := {| years := 1000; tolerance := 0;
                               combination := "or"; match_type := "exact" |};
          derivative_options := {| derivative_years := 100; step_size := 0.01;
                                   accuracy_order := 1;
                                   parameters_typical_values := [] |} |};
     job_options := init_job_options 4 None;
     JOB_MEMORY_GB := 4;
     model_spinup_max_years := 5000;
     start_from_closest_parameters := false;
     spinup_dir := "spinup";
     closest_spinup_dir_candidate := None;
     derivative_dirname := fun _ => "derivative";
     initial_constant_concentrations := [];
     initial_concentration_files := [];
     default_match_type := "exact" |}.

(** *** What the fan-out does to the world *)








(** A model with two parameters and a spinup request of 1000 years, built
    with the argument [job_options]. *)
Definition model_with_job_options (job_options : option job_options_argument)
    : Model_Database :=
  {| model_options :=
       {| model_name := "MITgcm-PO4-DOP"; time_step := 1; parameters := [1; 2]%float;
          parameters_bounds := [(0, 10); (0, 10)]%float;
          tracers := ["po4"; "dop"];
          use_constant_concentrations := true;
          spinup_options := {| years := 1000; tolerance := 0;
                               combination := "or"; match_type := "exact" |};
          derivative_options := {| derivative_years := 100; step_size := 0.01;
                                   accuracy_order := 1;
                                   parameters_typical_values := [1; 1]%float |} |};
     job_options := init_job_options 4 job_options;
     JOB_MEMORY_GB := 4;
     model_spinup_max_years := 5000;
     start_from_closest_parameters := false;
     spinup_dir := "spinup";
     closest_spinup_dir_candidate := None;
     derivative_dirname := fun _ => "derivative";
     initial_constant_concentrations := [];
     initial_concentration_files := [];
     default_match_type := "exact" |}.

(** The model built with a job setup whose [nodes_setup] is [None]. *)
Definition derivative_model : Model_Database :=
  model_with_job_options (Some (JobSetup {| name := None; nodes_setup := Some None |})).


Definition example_dirname (ids : list factor_id) : string :=
  match ids with
  | [FactorIdInt 0 1] => "partial_derivative_0_+1"
  | [FactorIdInt 1 1] => "partial_derivative_1_+1"
  | _ => "partial_derivative"
  end.

(** The first stencil point of a forward difference: parameter 0 moved by
    one step. *)
Definition example_point : list float := [1.01; 2]%float.

(** The job setup [_df] gets from [job_options_for_kind('derivative')]. *)
Definition example_job_options : JobOptions :=
  derivative_job_options (job_options derivative_model).

Definition example_start (w : World)
    : result (Z * JobOptions * list (list float * dir) * World) :=
  start_partial_derivative_run ideal_solver derivative_model example_dirname 2
    false 2 [1; 2]%float [1; 1]%float "derivative" (RunDir "spinup" 0)
    example_job_options [] example_point w.

Definition example_pd : dir :=
  partial_derivative_dir_of derivative_model example_dirname 2 [1; 2]%float
    [1; 1]%float "derivative" example_point.



(** The world a computation ends in, [w] if it raises. *)
Definition world_after {A} (r : result (A * World)) (w : World) : World :=
  match r with
  | Ok (_, w') => w'
  | Raise _ => w
  end.

Definition spinup_done : World := chain_world "spinup" [(1000, 1 # 1000)].

Definition after_first_start : World := world_after (example_start spinup_done) spinup_done.

Definition after_second_start : World :=
  world_after (example_start after_first_start) after_first_start.

(** ** Further properties: vocabulary *)

(** The record of a job after [wait_until_run_finished]. *)
Definition mark_finished (make_read_only : bool) (j : Job) : Job :=
  {| job_config := job_config j; last_year := last_year j;
     last_tolerance := last_tolerance j;
     tracer_output_files := tracer_output_files j;
     read_only_input := if make_read_only then true else read_only_input j;
     read_only_output := if make_read_only then true else read_only_output j;
     finished := true |}.

(** Every job record but the one of [d] is as it was. *)
Definition other_jobs_kept (d : dir) (w w' : World) : Prop :=
  forall d', d' <> d -> jobs w' !! d' = jobs w !! d'.

(** The solver runs at least the years it is asked for. *)
Definition reaches_years (solver : World -> dir -> JobConfig -> Z * Q) : Prop :=
  forall w d c, job_years c <= fst (solver w d c).

(** The property [is_matching_run_available]. *)
Definition is_matching_run_available (self : Model_Database) : M bool :=
  let spinup_dir := spinup_dir self in
  last_run_dir_ <- last_run_dir spinup_dir ;;
  let spinup_options := spinup_options (model_options self) in
  is_run_matching_options self last_run_dir_ spinup_options true.

(** The record [start_run] writes for a configuration, before the job is
    waited for. *)
Definition started_job (solver : World -> dir -> JobConfig -> Z * Q)
    (self : Model_Database) (w : World) (d : dir) (c : JobConfig)
    (make_read_only : bool) : Job :=
  {| job_config := c; last_year := fst (solver w d c);
     last_tolerance := snd (solver w d c);
     tracer_output_files := map (output_file d) (tracers (model_options self));
     read_only_input := make_read_only; read_only_output := false;
     finished := false |}.

(** The configuration [start_run] hands to the job. *)
Definition run_config (self : Model_Database) (model_parameters : list float)
    (years : Z) (tolerance : Q) (job_options : option JobOptions)
    (write_trajectory : bool) (initial_constant_concentrations : option (list Q))
    (tracer_input_files : option (list file)) (total_concentration_factor : float)
    : JobConfig :=
  {| job_model_name := model_name (model_options self);
     job_model_parameters := model_parameters;
     job_years := years;
     job_tolerance := tolerance;
     job_time_step := time_step (model_options self);
     job_initial_constant_concentrations := initial_constant_concentrations;
     job_tracer_input_files := tracer_input_files;
     job_total_concentration_factor := total_concentration_factor;
     job_write_trajectory := write_trajectory;
     job_job_options := job_options |}.

(** The runs [0..k] under [sd] have in [w'] the years and tolerances they
    have in [w]. *)
Definition results_kept (sd : string) (k : nat) (w w' : World) : Prop :=
  forall i, (i <= k)%nat ->
    (fun j => (last_year j, last_tolerance j)) <$> jobs w' !! RunDir sd i
    = (fun j => (last_year j, last_tolerance j)) <$> jobs w !! RunDir sd i.

(** A tracer of the model. *)
Definition supported (self : Model_Database) (tracer : string) : Prop :=
  tracer ∈ tracers (model_options self).

(** The mapping with the value [vals t] for each tracer [t], in the order
    of the tracers. *)
Definition values_of {V} (vals : string -> list V) (tracers_ : list string)
    : dict (list V) :=
  map (fun t => (t, vals t)) tracers_.

(** ** Further example worlds *)

(** A model whose runs are started from the closest parameter set, kept
    under [closest]. *)
Definition closest_model : Model_Database :=
  {| model_options := model_options or_model;
     job_options := init_job_options 4 None;
     JOB_MEMORY_GB := 4;
     model_spinup_max_years := 5000;
     start_from_closest_parameters := true;
     spinup_dir := "spinup";
     closest_spinup_dir_candidate := Some "closest";
     derivative_dirname := fun _ => "derivative";
     initial_constant_concentrations := [];
     initial_concentration_files := [];
     default_match_type := "exact" |}.

(** A chain of two runs whose first record is lost. *)
Definition lost_record : World :=
  set_jobs (delete (RunDir "spinup" 0)) (chain_world "spinup" [(5, 0%Q); (3, 0%Q)]).

(** A world with one spinup run of 400 years that stopped at tolerance 1e-3. *)
Definition short_spinup : World := chain_world "spinup" [(400, 1 # 1000)].

(** A world with one spinup run of 1000 years. *)
Definition long_spinup : World := chain_world "spinup" [(1000, 0%Q)].

(** A loader that reads the same two values for every tracer. *)
Definition two_values (d : dir) (tracer : string) : list Z := [1; 2].

(** Two doubles, by sign, mantissa and exponent, are equal as numbers: the
    zeros are equal to each other, a NaN is equal to nothing. *)
Definition SF_equal (a b : spec_float) : Prop :=
  match a, b with
  | S754_zero _, S754_zero _ => True
  | S754_infinity s, S754_infinity s' => s = s'
  | S754_finite s m e, S754_finite s' m' e' => s = s' /\ m = m' /\ e = e'
  | _, _ => False
  end.
(** * Properties *)

(** ** Run chains *)

Lemma total_years_snoc js j :
  total_years (js ++ [j]) = total_years js + last_year j.
Proof.
  unfold total_years. induction js as [|a js IH]; simpl; lia.
Qed.

Lemma chain_length w sd i js : chain w sd i = Some js -> length js = S i.
Proof.
  revert js. induction i as [|i IH]; intros js H; simpl in H.
  - destruct (jobs w !! RunDir sd 0%nat); inversion H; reflexivity.
  - destruct (chain w sd i) as [js'|]; [|discriminate]. simpl in H.
    destruct (jobs w !! RunDir sd (S i)); inversion H.
    rewrite length_app, (IH js' eq_refl). simpl. lia.
Qed.

Lemma chain_last w sd i js :
  chain w sd i = Some js ->
  exists j, jobs w !! RunDir sd i = Some j /\ last js = Some j.
Proof.
  destruct i as [|i]; simpl; intros H.
  - destruct (jobs w !! RunDir sd 0%nat) as [j|]; inversion H. eauto.
  - destruct (chain w sd i) as [js'|]; [|discriminate]. simpl in H.
    destruct (jobs w !! RunDir sd (S i)) as [j|]; inversion H.
    exists j. split; [reflexivity | apply last_snoc].
Qed.

Lemma chain_prefix w sd i js :
  chain w sd (S i) = Some js ->
  exists js' j, chain w sd i = Some js' /\ jobs w !! RunDir sd (S i) = Some j
                /\ js = js' ++ [j].
Proof.
  simpl. intros H.
  destruct (chain w sd i) as [js'|]; [|discriminate]. simpl in H.
  destruct (jobs w !! RunDir sd (S i)) as [j|]; inversion H. eauto.
Qed.

Lemma load_job_Some w d j : jobs w !! d = Some j -> load_job d w = Ok (j, w).
Proof. unfold load_job. intros ->. reflexivity. Qed.

Lemma load_job_None w d : jobs w !! d = None -> load_job d w = Raise (JobOptionFileError d).
Proof. unfold load_job. intros ->. reflexivity. Qed.

Lemma real_years_loop_chain w sd i js acc :
  chain w sd i = Some js ->
  real_years_loop sd i true acc w = Ok (acc + total_years js, w).
Proof.
  revert js acc. induction i as [|i IH]; intros js acc H.
  - simpl in H. destruct (jobs w !! RunDir sd 0%nat) as [j|] eqn:Hj; inversion H.
    simpl. unfold bind. rewrite (load_job_Some _ _ _ Hj).
    unfold ret, total_years. simpl. do 2 f_equal. lia.
  - destruct (chain_prefix _ _ _ _ H) as (js' & j & Hc & Hj & ->).
    simpl. unfold bind. rewrite (load_job_Some _ _ _ Hj).
    rewrite (IH _ _ Hc). rewrite total_years_snoc. do 2 f_equal. lia.
Qed.

Lemma real_years_loop_single w sd i j acc :
  jobs w !! RunDir sd i = Some j ->
  real_years_loop sd i false acc w = Ok (acc + last_year j, w).
Proof.
  intros Hj. destruct i; simpl; unfold bind; rewrite (load_job_Some _ _ _ Hj);
    reflexivity.
Qed.

Lemma real_years_chain w sd i js :
  chain w sd i = Some js ->
  real_years (RunDir sd i) true w = Ok (total_years js, w).
Proof.
  intros H. unfold real_years. rewrite (real_years_loop_chain _ _ _ _ _ H).
  reflexivity.
Qed.

(** C7. Total years of a chain: for a run whose chain of predecessors back
    to run 0 is loadable, [real_years] with [include_previous_runs] returns
    the sum of the per-run years of the run and all its predecessors, and
    leaves the world as it was. *)
Theorem real_years_is_chain_sum (w : World) (sd : string) (i : nat) (js : list Job) :
  chain w sd i = Some js ->
  real_years (RunDir sd i) true w = Ok (total_years js, w)
  /\ length js = S i.
Proof.
  intros H. split.
  - exact (real_years_chain _ _ _ _ H).
  - exact (chain_length _ _ _ _ H).
Qed.

Example chain_5_3_7 :
  real_years (RunDir "spinup" 2) true (chain_world "spinup" [(5, 0%Q); (3, 0%Q); (7, 0%Q)])
  = Ok (15, chain_world "spinup" [(5, 0%Q); (3, 0%Q); (7, 0%Q)]).
Proof. vm_compute. reflexivity. Qed.

Lemma real_years_is_chain_sum_witness :
  real_years (RunDir "spinup" 2) true
    (chain_world "spinup" [(5, 0%Q); (3, 0%Q); (7, 0%Q)])
  = Ok (15, chain_world "spinup" [(5, 0%Q); (3, 0%Q); (7, 0%Q)])
  /\ length [example_job 5 0; example_job 3 0; example_job 7 0] = 3%nat.
Proof.
  apply (real_years_is_chain_sum
           (chain_world "spinup" [(5, 0%Q); (3, 0%Q); (7, 0%Q)]) "spinup" 2
           [example_job 5 0; example_job 3 0; example_job 7 0]).
  vm_compute. reflexivity.
Defined.

(** ** Matching a run against spinup options *)

Lemma real_tolerance_chain w sd i js :
  chain w sd i = Some js ->
  real_tolerance (RunDir sd i) w = Ok (achieved_tolerance js, w).
Proof.
  intros H. destruct (chain_last _ _ _ _ H) as (j & Hj & Hl).
  unfold real_tolerance, bind. rewrite (load_job_Some _ _ _ Hj).
  unfold achieved_tolerance. rewrite Hl. reflexivity.
Qed.

Lemma or_rule_reflect o ry rt :
  (years o <=? ry) || Qle_bool rt (tolerance o) = true <-> matches_or o ry rt.
Proof.
  unfold matches_or. rewrite orb_true_iff, Z.leb_le, Qle_bool_iff. reflexivity.
Qed.

Lemma and_rule_reflect cap o ry rt :
  ((years o <=? ry) && Qle_bool rt (tolerance o)) || (cap <=? ry) = true
  <-> matches_and cap o ry rt.
Proof.
  unfold matches_and.
  rewrite orb_true_iff, andb_true_iff, !Z.leb_le, Qle_bool_iff. reflexivity.
Qed.

(** C1. The combination rule: for an existing run whose chain loads,
    [is_run_matching_options] returns true exactly when, with [or], the
    accumulated years reach the requested years or the achieved tolerance
    is within the requested one, and, with [and], both hold or the
    accumulated years reach the maximal spinup years; with [and] one
    warning is emitted exactly when the run matches while its tolerance
    exceeds the requested one, and nothing else in the world changes. *)
Theorem is_run_matching_options_rule (self : Model_Database) (w : World)
    (sd : string) (i : nat) (js : list Job) (o : SpinupOptions) :
  chain w sd i = Some js ->
  let run_years := total_years js in
  let run_tolerance := achieved_tolerance js in
  (combination o = "or" ->
   exists b, is_run_matching_options self (Some (RunDir sd i)) o true w = Ok (b, w)
             /\ (b = true <-> matches_or o run_years run_tolerance))
  /\ (combination o = "and" ->
      exists b w',
        is_run_matching_options self (Some (RunDir sd i)) o true w = Ok (b, w')
        /\ (b = true <-> matches_and (model_spinup_max_years self) o run_years run_tolerance)
        /\ ((b = true /\ ~ (run_tolerance <= tolerance o)%Q
             /\ w' = add_warning (MaxSpinupYearsReached (RunDir sd i) (tolerance o)
                                    (model_spinup_max_years self)) w)
            \/ (~ (b = true /\ ~ (run_tolerance <= tolerance o)%Q) /\ w' = w))).
Proof.
  intros H ry rt.
  pose proof (real_years_chain _ _ _ _ H) as Hy.
  pose proof (real_tolerance_chain _ _ _ _ H) as Ht.
  split; intros Hc; unfold is_run_matching_options, bind;
    rewrite Hy, Ht, Hc; simpl; fold ry; fold rt.
  - eexists. split; [reflexivity|]. apply or_rule_reflect.
  - pose proof (and_rule_reflect (model_spinup_max_years self) o ry rt) as Hrule.
    pose proof (Qle_bool_iff rt (tolerance o)) as Hq.
    set (q := Qle_bool rt (tolerance o)) in *.
    set (b := ((years o <=? ry) && q) || (model_spinup_max_years self <=? ry)) in *.
    clearbody b q. exists b.
    destruct b, q; simpl; eexists; (split; [reflexivity|]); (split; [exact Hrule|]).
    + right. split; [|reflexivity]. intros (_ & Hn). apply Hn, Hq. reflexivity.
    + left. split; [reflexivity|]. split; [|reflexivity].
      intros Hn. apply Hq in Hn. discriminate.
    + right. split; [|reflexivity]. intros (Hn & _). discriminate.
    + right. split; [|reflexivity]. intros (Hn & _). discriminate.
Qed.

Lemma is_run_matching_options_rule_witness :
  let w := chain_world "spinup" [(3000, 1 # 10); (2000, 1 # 100)] in
  let js := [example_job 3000 (1 # 10); example_job 2000 (1 # 100)] in
  let o := {| years := 1000; tolerance := 1 # 10000; combination := "and";
              match_type := "exact" |} in
  chain w "spinup" 1 = Some js
  /\ exists b w',
      is_run_matching_options example_model (Some (RunDir "spinup" 1)) o true w
      = Ok (b, w')
      /\ (b = true <-> matches_and 5000 o (total_years js) (achieved_tolerance js))
      /\ ((b = true /\ ~ (achieved_tolerance js <= tolerance o)%Q
           /\ w' = add_warning (MaxSpinupYearsReached (RunDir "spinup" 1)
                                  (tolerance o) 5000) w)
          \/ (~ (b = true /\ ~ (achieved_tolerance js <= tolerance o)%Q) /\ w' = w)).
Proof.
  intros w js o.
  assert (H : chain w "spinup" 1 = Some js) by (vm_compute; reflexivity).
  split; [exact H|].
  exact (proj2 (is_run_matching_options_rule example_model w "spinup" 1 js o H)
               eq_refl).
Defined.

(** The examples of the specification: with 1000 years, tolerance 1e-4 and
    the cap at 5000 years, a chain at 5000 years and tolerance 1e-2 matches
    with a warning, a chain at 999 years and tolerance 1e-5 does not. *)
Example and_cap_reached :
  let w := chain_world "spinup" [(5000, 1 # 100)] in
  is_run_matching_options example_model (Some (RunDir "spinup" 0))
    (spinup_options example_options) true w
  = Ok (true, add_warning (MaxSpinupYearsReached (RunDir "spinup" 0) (1 # 10000) 5000) w).
Proof. vm_compute. reflexivity. Qed.

Example and_years_missing :
  let w := chain_world "spinup" [(999, 1 # 100000)] in
  is_run_matching_options example_model (Some (RunDir "spinup" 0))
    (spinup_options example_options) true w
  = Ok (false, w).
Proof. vm_compute. reflexivity. Qed.

Lemma real_years_single w sd i js ip :
  chain w sd i = Some js ->
  exists y, real_years (RunDir sd i) ip w = Ok (y, w).
Proof.
  intros H. destruct ip.
  - eexists. exact (real_years_chain _ _ _ _ H).
  - destruct (chain_last _ _ _ _ H) as (j & Hj & _).
    eexists. unfold real_years. exact (real_years_loop_single _ _ _ _ _ Hj).
Qed.

(** C9 (as amended). An unknown combination keyword raises the
    [ValueError] naming it for every run directory whose records load;
    with no run directory the function returns false and raises nothing. *)
Theorem unknown_combination_raises (self : Model_Database) (w : World)
    (sd : string) (i : nat) (js : list Job) (o : SpinupOptions) (ip : bool) :
  chain w sd i = Some js ->
  combination o <> "and" -> combination o <> "or" ->
  is_run_matching_options self (Some (RunDir sd i)) o ip w
  = Raise (combination_unknown (combination o))
  /\ is_run_matching_options self None o ip w = Ok (false, w).
Proof.
  intros H Hand Hor. split; [|reflexivity].
  destruct (real_years_single _ _ _ _ ip H) as (y & Hy).
  unfold is_run_matching_options, bind.
  rewrite Hy, (real_tolerance_chain _ _ _ _ H).
  apply String.eqb_neq in Hand, Hor. rewrite Hand, Hor. reflexivity.
Qed.

Lemma unknown_combination_raises_witness :
  is_run_matching_options example_model (Some (RunDir "spinup" 0)) unknown_options
    true (chain_world "spinup" [(5, 0%Q)])
  = Raise (combination_unknown "xor")
  /\ is_run_matching_options example_model None unknown_options true
       (chain_world "spinup" [(5, 0%Q)])
     = Ok (false, chain_world "spinup" [(5, 0%Q)]).
Proof.
  apply (unknown_combination_raises example_model
           (chain_world "spinup" [(5, 0%Q)]) "spinup" 0 [example_job 5 0]
           unknown_options true).
  - vm_compute. reflexivity.
  - discriminate.
  - discriminate.
Defined.

(** C9, as stated, fails when no run directory is present: the unknown
    keyword is never looked at and the call returns false. *)
Lemma unknown_combination_without_run :
  is_run_matching_options example_model None unknown_options true
    (chain_world "spinup" [])
  = Ok (false, chain_world "spinup" [])
  /\ combination unknown_options <> "and"
  /\ combination unknown_options <> "or".
Proof. repeat split; discriminate. Qed.

(** ** Creating run directories *)

Lemma run_index_in_Some sd d i : run_index_in sd d = Some i <-> d = RunDir sd i.
Proof.
  destruct d as [s k| |]; simpl; try (split; discriminate).
  destruct (decide (s = sd)) as [->|Hne]; split; intros H;
    simplify_eq; reflexivity.
Qed.

Lemma elem_of_run_dirs sd w i : i ∈ run_dirs sd w <-> RunDir sd i ∈ dirs w.
Proof.
  unfold run_dirs. rewrite list_elem_of_omap. split.
  - intros (d & Hd & Hf). apply run_index_in_Some in Hf. subst d.
    apply elem_of_elements. exact Hd.
  - intros H. exists (RunDir sd i). split.
    + apply elem_of_elements. exact H.
    + apply run_index_in_Some. reflexivity.
Qed.

Lemma NoDup_omap_inj {A B} (f : A -> option B) (l : list A) :
  (forall x y z, f x = Some z -> f y = Some z -> x = y) ->
  NoDup l -> NoDup (omap f l).
Proof.
  intros Hinj. induction 1 as [|x l Hx Hl IH]; simpl.
  - constructor.
  - destruct (f x) as [z|] eqn:Hfx; [|exact IH].
    constructor; [|exact IH].
    intros Hz. apply list_elem_of_omap in Hz as (y & Hy & Hfy).
    rewrite (Hinj _ _ _ Hfx Hfy) in Hx. contradiction.
Qed.

Lemma NoDup_run_dirs sd w : NoDup (run_dirs sd w).
Proof.
  unfold run_dirs. apply NoDup_omap_inj.
  - intros x y z Hx Hy. apply run_index_in_Some in Hx, Hy. congruence.
  - apply NoDup_elements.
Qed.

Lemma contiguous_length sd w n : contiguous sd w n -> length (run_dirs sd w) = n.
Proof.
  intros Hc.
  assert (Hp : run_dirs sd w ≡ₚ seq 0 n).
  { apply NoDup_Permutation.
    - apply NoDup_run_dirs.
    - apply NoDup_seq.
    - intros i. rewrite elem_of_run_dirs, elem_of_seq, (Hc i). lia. }
  rewrite Hp. apply length_seq.
Qed.

Lemma makedirs_new d ok w :
  d ∉ dirs w -> makedirs d ok w = Ok (tt, set_dirs (union {[d]}) w).
Proof.
  intros H. unfold makedirs, bind, get_world.
  destruct (decide (d ∈ dirs w)); [contradiction|reflexivity].
Qed.

Lemma makedirs_exists d w :
  d ∈ dirs w -> makedirs d false w = Raise (FileExistsError d).
Proof.
  intros H. unfold makedirs, bind, get_world.
  destruct (decide (d ∈ dirs w)); [reflexivity|contradiction].
Qed.

Lemma makedirs_exist_ok d w :
  exists w', makedirs d true w = Ok (tt, w')
             /\ (forall sd i, RunDir sd i ∈ dirs w' <-> RunDir sd i ∈ dirs w \/ d = RunDir sd i)
             /\ jobs w' = jobs w /\ submitted w' = submitted w.
Proof.
  unfold makedirs, bind, get_world.
  destruct (decide (d ∈ dirs w)) as [Hin|Hout].
  - exists w. split; [reflexivity|]. split; [|split; reflexivity].
    intros sd i. split; [auto|]. intros [H| ->]; assumption.
  - eexists. split; [reflexivity|]. split; [|split; reflexivity].
    intros sd i. simpl. rewrite elem_of_union, elem_of_singleton.
    split; intros [H|H]; auto.
Qed.

Lemma run_dirs_length_same sd w1 w2 :
  (forall i, RunDir sd i ∈ dirs w1 <-> RunDir sd i ∈ dirs w2) ->
  length (run_dirs sd w1) = length (run_dirs sd w2).
Proof.
  intros H. apply Permutation_length, NoDup_Permutation; try apply NoDup_run_dirs.
  intros i. rewrite !elem_of_run_dirs. apply H.
Qed.

Lemma make_new_run_dir_exists sd w :
  RunDir sd (length (run_dirs sd w)) ∈ dirs w ->
  make_new_run_dir sd w = Raise (FileExistsError (RunDir sd (length (run_dirs sd w)))).
Proof.
  intros Hin. unfold make_new_run_dir, bind.
  destruct (makedirs_exist_ok (Dir sd) w) as (w1 & -> & Hd & _).
  assert (Hsame : forall i, RunDir sd i ∈ dirs w1 <-> RunDir sd i ∈ dirs w).
  { intros i. rewrite Hd. split; [intros [H|H]; [exact H|discriminate]|auto]. }
  unfold get_world. rewrite (run_dirs_length_same _ _ _ Hsame).
  rewrite makedirs_exists; [reflexivity|]. apply Hsame. exact Hin.
Qed.

(** C10. New run directories keep the chain contiguous: when the run
    directories under [output_path] are those of the indices [0..n-1],
    [make_new_run_dir] creates and returns the directory of index [n], the
    run directories are then those of [0..n], and a further attempt to
    create the directory of index [n] raises [FileExistsError], whatever
    directories were added in between.  In any world, when the directory
    whose index is the number of run directories found already exists,
    [make_new_run_dir] raises [FileExistsError] and reuses nothing. *)
Theorem make_new_run_dir_contiguous (output_path : string) (w : World) (n : nat) :
  contiguous output_path w n ->
  (exists w',
    make_new_run_dir output_path w = Ok (RunDir output_path n, w')
    /\ contiguous output_path w' (S n)
    /\ forall w'', dirs w' ⊆ dirs w'' ->
         makedirs (RunDir output_path n) false w''
         = Raise (FileExistsError (RunDir output_path n)))
  /\ (forall v,
        RunDir output_path (length (run_dirs output_path v)) ∈ dirs v ->
        make_new_run_dir output_path v
        = Raise (FileExistsError (RunDir output_path (length (run_dirs output_path v))))).
Proof.
  intros Hc. split; [|intros v; apply make_new_run_dir_exists].
  unfold make_new_run_dir, bind.
  destruct (makedirs_exist_ok (Dir output_path) w) as (w1 & -> & Hd & _).
  assert (Hc1 : contiguous output_path w1 n).
  { intros i. rewrite Hd, <- (Hc i). split; [intros [H|H]; [exact H|discriminate]|auto]. }
  unfold get_world. rewrite (contiguous_length _ _ _ Hc1).
  assert (Hnew : RunDir output_path n ∉ dirs w1).
  { rewrite (Hc1 n). lia. }
  rewrite (makedirs_new _ _ _ Hnew). eexists. split; [reflexivity|]. split.
  - intros i. simpl. rewrite elem_of_union, elem_of_singleton, (Hc1 i).
    split.
    + intros [H|H]; [simplify_eq|]; lia.
    + intros H. destruct (decide (i = n)) as [->|Hne]; [left; reflexivity|right; lia].
  - intros w'' Hsub. apply makedirs_exists. apply Hsub. simpl.
    apply elem_of_union_l, elem_of_singleton. reflexivity.
Qed.

Lemma make_new_run_dir_contiguous_witness :
  contiguous "spinup" (chain_world "spinup" [(5, 0%Q); (3, 0%Q)]) 2
  /\ exists w',
    make_new_run_dir "spinup" (chain_world "spinup" [(5, 0%Q); (3, 0%Q)])
    = Ok (RunDir "spinup" 2, w')
    /\ contiguous "spinup" w' 3.
Proof.
  assert (H : contiguous "spinup" (chain_world "spinup" [(5, 0%Q); (3, 0%Q)]) 2).
  { intros i. simpl. rewrite !elem_of_union, !elem_of_singleton.
    split.
    - intros [H|[H|H]]; [simplify_eq; lia|simplify_eq; lia|].
      apply not_elem_of_empty in H. contradiction.
    - intros H. destruct i as [|[|i]]; [auto|auto|lia]. }
  split; [exact H|].
  destruct (proj1 (make_new_run_dir_contiguous "spinup" _ 2 H)) as (w' & Hm & Hc & _).
  exists w'. split; assumption.
Defined.

(** A gap in the indices: one run directory, of index 1.  The next index
    is the count, 1, which exists. *)
Example make_new_run_dir_gap :
  make_new_run_dir "spinup"
    {| dirs := {[RunDir "spinup" 1]}; jobs := ∅; submitted := []; waited := [];
       warnings := []; next_tmp := 0; removed := [] |}
  = Raise (FileExistsError (RunDir "spinup" 1)).
Proof. vm_compute. reflexivity. Qed.

(** ** The match type equal_or_nearest_better *)

Lemma same_files_refl w : same_files w w.
Proof. repeat split. Qed.

Lemma same_files_trans w1 w2 w3 :
  same_files w1 w2 -> same_files w2 w3 -> same_files w1 w3.
Proof.
  intros (A1 & A2 & A3 & A4) (B1 & B2 & B3 & B4).
  repeat split; congruence.
Qed.

Lemma same_files_add_warning x w : same_files w (add_warning x w).
Proof. repeat split. Qed.

Lemma chain_same_jobs w w' sd i : jobs w' = jobs w -> chain w' sd i = chain w sd i.
Proof.
  intros H. induction i as [|i IH]; simpl; rewrite H; [reflexivity|].
  rewrite IH. reflexivity.
Qed.

Lemma chain_take w sd k js m :
  chain w sd k = Some js -> (m <= k)%nat -> chain w sd m = Some (take (S m) js).
Proof.
  revert js. induction k as [|k IH]; intros js H Hm.
  - assert (m = 0%nat) as -> by lia. rewrite H. f_equal.
    apply chain_length in H. destruct js as [|j [|]]; simpl in *; try discriminate.
    reflexivity.
  - destruct (decide (m = S k)) as [->|Hne].
    + rewrite H. f_equal. symmetry. apply take_ge.
      rewrite (chain_length _ _ _ _ H). lia.
    + destruct (chain_prefix _ _ _ _ H) as (js' & j & Hc & Hj & ->).
      rewrite (IH js' Hc) by lia. f_equal.
      rewrite take_app_le; [reflexivity|].
      rewrite (chain_length _ _ _ _ Hc). lia.
Qed.

Lemma is_run_matching_options_chain self w sd i js o :
  chain w sd i = Some js ->
  combination o = "and" \/ combination o = "or" ->
  exists w', is_run_matching_options self (Some (RunDir sd i)) o true w
             = Ok (rule_holds self o js, w')
             /\ same_files w w'.
Proof.
  intros H Hc.
  unfold is_run_matching_options, rule_holds, bind.
  rewrite (real_years_chain _ _ _ _ H), (real_tolerance_chain _ _ _ _ H).
  destruct Hc as [-> | ->]; simpl.
  - match goal with |- context [if ?c then warn ?x else _] =>
      destruct c; simpl end.
    + eexists. split; [reflexivity|apply same_files_add_warning].
    + eexists. split; [reflexivity|apply same_files_refl].
  - eexists. split; [reflexivity|apply same_files_refl].
Qed.

Section NearestBetter.

Variable self : Model_Database.
Variable o : SpinupOptions.
Hypothesis valid : combination o = "and" \/ combination o = "or".

Lemma nearest_better_loop_S sd i :
  nearest_better_loop self sd (S i) o
  = (b <- is_run_matching_options self (Some (RunDir sd i)) o true ;;
     if b then nearest_better_loop self sd i o else ret (RunDir sd (S i))).
Proof. reflexivity. Qed.

Lemma nearest_better_loop_block sd i : forall w js,
  chain w sd i = Some js ->
  exists j w',
    nearest_better_loop self sd i o w = Ok (RunDir sd j, w')
    /\ (j <= i)%nat
    /\ (forall m, (j <= m < i)%nat -> rule_holds self o (take (S m) js) = true)
    /\ (j = 0%nat \/ rule_holds self o (take j js) = false)
    /\ same_files w w'.
Proof.
  induction i as [|i IH]; intros w js H.
  - exists 0%nat, w. simpl. unfold bind, ret. simpl.
    repeat split; [lia|intros; lia|left; reflexivity].
  - rewrite nearest_better_loop_S. unfold bind.
    pose proof (chain_take _ _ _ _ i H ltac:(lia)) as Hi.
    destruct (is_run_matching_options_chain self _ _ _ _ o Hi valid)
      as (w1 & -> & Hs1).
    destruct (rule_holds self o (take (S i) js)) eqn:Hr.
    + assert (Hi1 : chain w1 sd i = Some (take (S i) js)).
      { rewrite (chain_same_jobs w w1); [exact Hi|apply Hs1]. }
      destruct (IH _ _ Hi1) as (j & w' & -> & Hle & Hblock & Hstop & Hs2).
      exists j, w'. split; [reflexivity|]. split; [lia|]. split; [|split].
      * intros m Hm. destruct (decide (m = i)) as [->|Hne]; [exact Hr|].
        specialize (Hblock m ltac:(lia)).
        rewrite take_take in Hblock.
        replace (S m `min` S i)%nat with (S m) in Hblock by lia. exact Hblock.
      * destruct Hstop as [Hz|Hf]; [left; exact Hz|right].
        rewrite take_take in Hf.
        replace (j `min` S i)%nat with j in Hf by lia. exact Hf.
      * exact (same_files_trans _ _ _ Hs1 Hs2).
    + exists (S i), w1. split; [reflexivity|]. split; [lia|]. split; [|split].
      * intros m Hm. lia.
      * right. exact Hr.
      * exact Hs1.
Qed.

End NearestBetter.

Lemma last_run_dir_last sd w k j :
  length (run_dirs sd w) = S k ->
  jobs w !! RunDir sd k = Some j ->
  last_run_dir sd w = Ok (Some (RunDir sd k), w).
Proof.
  intros Hl Hj. unfold last_run_dir, bind, get_world. rewrite Hl.
  replace (Z.of_nat (S k) - 1) with (Z.of_nat k) by lia.
  destruct (0 <=? Z.of_nat k) eqn:Hk; [|lia].
  rewrite Nat2Z.id, (load_job_Some _ _ _ Hj). reflexivity.
Qed.

Lemma last_run_dir_none sd w :
  length (run_dirs sd w) = 0%nat -> last_run_dir sd w = Ok (None, w).
Proof.
  intros Hl. unfold last_run_dir, bind, get_world. rewrite Hl. reflexivity.
Qed.

Lemma run_matches_valid self w sd i js o b :
  chain w sd i = Some js ->
  run_matches self w (RunDir sd i) o b ->
  combination o = "and" \/ combination o = "or".
Proof.
  intros H (w' & Hm).
  destruct (String.eqb (combination o) "and") eqn:Ha;
    [left; apply String.eqb_eq; exact Ha|].
  destruct (String.eqb (combination o) "or") eqn:Hb;
    [right; apply String.eqb_eq; exact Hb|].
  unfold is_run_matching_options, bind in Hm.
  rewrite (real_years_chain _ _ _ _ H), (real_tolerance_chain _ _ _ _ H) in Hm.
  rewrite Ha, Hb in Hm. discriminate.
Qed.

Lemma run_matches_rule self w sd i js o b :
  chain w sd i = Some js ->
  combination o = "and" \/ combination o = "or" ->
  run_matches self w (RunDir sd i) o b <-> rule_holds self o js = b.
Proof.
  intros H Hv.
  destruct (is_run_matching_options_chain self _ _ _ _ o H Hv) as (w1 & Hm & _).
  split.
  - intros (w' & Hm'). rewrite Hm in Hm'. congruence.
  - intros <-. exists w1. exact Hm.
Qed.

(** C3 (as amended). With match type [equal_or_nearest_better] and a
    matching last run, [matching_run_dir] returns the start of the unbroken
    block of matching runs that ends at the last run: every run from the
    returned one to the last matches, and the returned run is run 0 or its
    predecessor does not match.  No job is started and no record changes. *)
Theorem nearest_better_returns_block_start
    (solver : World -> dir -> JobConfig -> Z * Q) (self : Model_Database)
    (o : SpinupOptions) (w : World) (k : nat) (js : list Job) (depth : nat) :
  length (run_dirs (spinup_dir self) w) = S k ->
  chain w (spinup_dir self) k = Some js ->
  run_matches self w (RunDir (spinup_dir self) k) o true ->
  match_type o = "equal_or_nearest_better" ->
  exists j w',
    matching_run_dir solver self (S depth) o w = Ok (RunDir (spinup_dir self) j, w')
    /\ (j <= k)%nat
    /\ (forall m, (j <= m <= k)%nat ->
          run_matches self w (RunDir (spinup_dir self) m) o true)
    /\ (j = 0%nat \/ run_matches self w (RunDir (spinup_dir self) (j - 1)) o false)
    /\ same_files w w'.
Proof.
  intros Hl H Hlast Hmt.
  pose proof (run_matches_valid _ _ _ _ _ _ _ H Hlast) as Hv.
  pose proof (proj1 (run_matches_rule _ _ _ _ _ _ _ H Hv) Hlast) as Hr.
  destruct (chain_last _ _ _ _ H) as (jl & Hjl & _).
  destruct (is_run_matching_options_chain self _ _ _ _ o H Hv) as (w1 & Hm & Hs1).
  simpl. unfold matching_run_dir_body, bind.
  rewrite (last_run_dir_last _ _ _ _ Hl Hjl), Hm, Hr, Hmt. simpl.
  assert (H1 : chain w1 (spinup_dir self) k = Some js).
  { rewrite (chain_same_jobs w w1); [exact H|apply Hs1]. }
  destruct (nearest_better_loop_block self o Hv _ _ _ _ H1)
    as (j & w' & -> & Hle & Hblock & Hstop & Hs2).
  exists j, w'. split; [reflexivity|]. split; [exact Hle|]. split; [|split].
  - intros m Hm'.
    apply (run_matches_rule self w _ m (take (S m) js) o true);
      [apply (chain_take _ _ _ _ _ H); lia|exact Hv|].
    destruct (decide (m = k)) as [->|Hne].
    + rewrite take_ge; [exact Hr|]. rewrite (chain_length _ _ _ _ H). lia.
    + apply Hblock. lia.
  - destruct Hstop as [Hz|Hf]; [left; exact Hz|].
    destruct j as [|j]; [left; reflexivity|right].
    replace (S j - 1)%nat with j by lia.
    apply (run_matches_rule self w _ j (take (S j) js) o false);
      [apply (chain_take _ _ _ _ _ H); lia|exact Hv|exact Hf].
  - exact (same_files_trans _ _ _ Hs1 Hs2).
Qed.

Lemma nearest_better_returns_block_start_witness :
  length (run_dirs (spinup_dir example_model) uneven_chain) = 3%nat
  /\ exists j w',
    matching_run_dir ideal_solver example_model 1
      (nearest_better_options 100 (1 # 10000) "or") uneven_chain
    = Ok (RunDir (spinup_dir example_model) j, w')
    /\ (j <= 2)%nat
    /\ (forall m, (j <= m <= 2)%nat ->
          run_matches example_model uneven_chain (RunDir (spinup_dir example_model) m)
            (nearest_better_options 100 (1 # 10000) "or") true)
    /\ (j = 0%nat
        \/ run_matches example_model uneven_chain
             (RunDir (spinup_dir example_model) (j - 1))
             (nearest_better_options 100 (1 # 10000) "or") false)
    /\ same_files uneven_chain w'.
Proof.
  assert (Hl : length (run_dirs (spinup_dir example_model) uneven_chain) = 3%nat)
    by (vm_compute; reflexivity).
  split; [exact Hl|].
  apply (nearest_better_returns_block_start ideal_solver example_model
           (nearest_better_options 100 (1 # 10000) "or") uneven_chain 2
           [example_job 10 (1 # 100000); example_job 10 (1 # 1000);
            example_job 100 (1 # 1000)] 0 Hl).
  - vm_compute. reflexivity.
  - exists uneven_chain. vm_compute. reflexivity.
  - reflexivity.
Defined.

(** C3, as stated, fails on a chain whose tolerance gets worse: the walk
    stops at run 2 because run 1 does not match, although run 0 matches. *)
Lemma nearest_better_skips_earlier_match :
  matching_run_dir ideal_solver example_model 1
    (nearest_better_options 100 (1 # 10000) "or") uneven_chain
  = Ok (RunDir "spinup" 2, uneven_chain)
  /\ is_run_matching_options example_model (Some (RunDir "spinup" 0))
       (nearest_better_options 100 (1 # 10000) "or") true uneven_chain
     = Ok (true, uneven_chain)
  /\ is_run_matching_options example_model (Some (RunDir "spinup" 1))
       (nearest_better_options 100 (1 # 10000) "or") true uneven_chain
     = Ok (false, uneven_chain).
Proof. vm_compute. repeat split; reflexivity. Qed.

(** ** Requests with combination and *)

Lemma matching_run_dir_or_no_rec solver self f g o :
  combination o = "or" ->
  matching_run_dir_body solver self f o = matching_run_dir_body solver self g o.
Proof.
  intros Hc. unfold matching_run_dir_body. cbv zeta. rewrite Hc. reflexivity.
Qed.

Lemma matching_run_dir_or_depth solver self o n :
  combination o = "or" ->
  matching_run_dir solver self (S n) o = matching_run_dir solver self 1 o.
Proof. intros Hc. simpl. apply matching_run_dir_or_no_rec. exact Hc. Qed.

Lemma last_run_dir_world sd w l w' : last_run_dir sd w = Ok (l, w') -> w' = w.
Proof.
  unfold last_run_dir, bind, get_world, load_job, ret.
  destruct (0 <=? _); [destruct (jobs w !! _)|]; intros H; congruence.
Qed.

Lemma is_run_matching_options_false_world self l o ip w w' :
  is_run_matching_options self l o ip w = Ok (false, w') -> w' = w.
Proof.
  destruct l as [d|]; simpl; [|unfold ret; congruence].
  unfold bind.
  destruct (real_years d ip w) as [[ry w1]|] eqn:Hy; [|discriminate].
  assert (w1 = w) as ->.
  { destruct d; simpl in Hy; unfold bind, load_job, ret in Hy.
    - revert Hy. generalize 0. induction run_index as [|i IH]; intros acc; simpl;
        unfold bind, load_job, ret; destruct (jobs w !! _); destruct ip;
        try congruence. apply IH.
    - destruct (jobs w !! _); congruence.
    - destruct (jobs w !! _); congruence. }
  unfold real_tolerance, bind, load_job.
  destruct (jobs w !! d); [|discriminate]. unfold ret.
  destruct (String.eqb (combination o) "and").
  - match goal with |- context [if ?c then warn _ else _] => destruct c eqn:Hc end.
    + apply andb_true_iff in Hc as [Hc _]. rewrite Hc. simpl. discriminate.
    + simpl. congruence.
  - destruct (String.eqb (combination o) "or"); [congruence|discriminate].
Qed.

(** C2. A request with combination [and] whose last run does not match is
    resolved, after the run to start from has been waited for, by two
    requests with combination [or] in sequence: the requested years with
    tolerance 0, then the maximal spinup years with the requested
    tolerance; the run directory returned is the one of the second.
    Neither of the two calls itself again. *)
Theorem and_is_two_or_resolutions
    (solver : World -> dir -> JobConfig -> Z * Q) (self : Model_Database)
    (o : SpinupOptions) (w w0 w1 : World) (l : option dir) (depth : nat) :
  combination o = "and" ->
  last_run_dir (spinup_dir self) w = Ok (l, w0) ->
  is_run_matching_options self l o true w0 = Ok (false, w1) ->
  matching_run_dir solver self (S (S depth)) o w
  = (finish_last_run self l ;;;
     matching_run_dir solver self 1 (years_alone self o) ;;;
     matching_run_dir solver self 1 (tolerance_alone self o)) w
  /\ (forall d w',
        matching_run_dir solver self (S (S depth)) o w = Ok (d, w') ->
        exists wa d1 wb,
          (finish_last_run self l ;;; ret tt) w = Ok (tt, wa)
          /\ matching_run_dir solver self 1 (years_alone self o) wa = Ok (d1, wb)
          /\ matching_run_dir solver self 1 (tolerance_alone self o) wb = Ok (d, w')).
Proof.
  intros Hc Hl Hm.
  pose proof (last_run_dir_world _ _ _ _ Hl) as ->.
  pose proof (is_run_matching_options_false_world _ _ _ _ _ _ Hm) as ->.
  assert (Heq : matching_run_dir solver self (S (S depth)) o w
    = (finish_last_run self l ;;;
       matching_run_dir solver self 1 (years_alone self o) ;;;
       matching_run_dir solver self 1 (tolerance_alone self o)) w).
  { change (matching_run_dir solver self (S (S depth)) o)
      with (matching_run_dir_body solver self (matching_run_dir solver self (S depth)) o).
    unfold matching_run_dir_body at 1. cbv zeta. unfold bind at 1. rewrite Hl.
    unfold bind at 1. rewrite Hm. rewrite Hc. simpl String.eqb. cbv iota.
    rewrite !(matching_run_dir_or_depth solver self _ depth) by reflexivity.
    reflexivity. }
  split; [exact Heq|].
  intros d w' Hres. rewrite Heq in Hres. unfold bind in Hres |- *.
  destruct (finish_last_run self l w) as [[x wa]|]; [|discriminate].
  destruct (matching_run_dir solver self 1 (years_alone self o) wa)
    as [[d1 wb]|] eqn:H1; [|discriminate].
  exists wa, d1, wb. repeat split; assumption.
Qed.

Lemma and_is_two_or_resolutions_witness :
  matching_run_dir slow_solver example_model 2 (spinup_options example_options)
    empty_world
  = (finish_last_run example_model None ;;;
     matching_run_dir slow_solver example_model 1
       (years_alone example_model (spinup_options example_options)) ;;;
     matching_run_dir slow_solver example_model 1
       (tolerance_alone example_model (spinup_options example_options))) empty_world
  /\ (forall d w',
        matching_run_dir slow_solver example_model 2 (spinup_options example_options)
          empty_world = Ok (d, w') ->
        exists wa d1 wb,
          (finish_last_run example_model None ;;; ret tt) empty_world = Ok (tt, wa)
          /\ matching_run_dir slow_solver example_model 1
               (years_alone example_model (spinup_options example_options)) wa
             = Ok (d1, wb)
          /\ matching_run_dir slow_solver example_model 1
               (tolerance_alone example_model (spinup_options example_options)) wb
             = Ok (d, w')).
Proof.
  apply (and_is_two_or_resolutions slow_solver example_model
           (spinup_options example_options) empty_world empty_world empty_world
           None 0).
  - reflexivity.
  - vm_compute. reflexivity.
  - reflexivity.
Defined.

(** With a solver that stops at tolerance 1e-3, the first resolution
    creates run 0 with 1000 years and the second extends the chain by run 1
    with the 4000 years left to the cap. *)
Example and_request_extends_twice :
  exists w',
    matching_run_dir slow_solver example_model 2 (spinup_options example_options)
      empty_world = Ok (RunDir "spinup" 1, w')
    /\ submitted w' = [RunDir "spinup" 0; RunDir "spinup" 1]
    /\ (last_year <$> jobs w' !! RunDir "spinup" 0) = Some 1000
    /\ (last_year <$> jobs w' !! RunDir "spinup" 1) = Some 4000.
Proof. eexists. vm_compute. repeat split; reflexivity. Qed.

(** ** Merging and splitting data sets *)

Section DictFacts.

Context {V : Type}.

Lemma dict_set_fresh (k : string) (v : V) (d : dict V) :
  k ∉ keys d -> dict_set k v d = d ++ [(k, v)].
Proof.
  induction d as [|[k' v'] d IH]; simpl; intros Hk; [reflexivity|].
  apply not_elem_of_cons in Hk as [Hne Hk].
  destruct (decide (k = k')); [contradiction|]. rewrite (IH Hk). reflexivity.
Qed.

Lemma keys_app (d1 d2 : dict V) : keys (d1 ++ d2) = keys d1 ++ keys d2.
Proof. unfold keys. apply map_app. Qed.

Lemma dict_get_fresh (k : string) (d : dict V) : k ∉ keys d -> dict_get k d = None.
Proof.
  induction d as [|[k' v'] d IH]; simpl; intros Hk; [reflexivity|].
  apply not_elem_of_cons in Hk as [Hne Hk].
  destruct (decide (k = k')); [contradiction|]. exact (IH Hk).
Qed.

Lemma elem_of_keys (k : string) (v : V) (d : dict V) : (k, v) ∈ d -> k ∈ keys d.
Proof.
  intros H. unfold keys. apply list_elem_of_fmap. exists (k, v). auto.
Qed.

End DictFacts.

Section DataSetFacts.

Variable A : Type.

Lemma getitem_middle (pre v post : list A) :
  getitem A (pre ++ v ++ post) (length pre, (length pre + length v)%nat) = v.
Proof.
  unfold getitem. simpl.
  rewrite drop_app_length.
  replace (length pre + length v - length pre)%nat with (length v) by lia.
  apply take_app_length.
Qed.

Lemma keys_slices_from s (ds : dict (list A)) : keys (slices_from A s ds) = keys ds.
Proof.
  revert s. induction ds as [|[n v] ds IH]; intros s; simpl; [reflexivity|].
  f_equal. apply IH.
Qed.

Lemma merge_data_set_loop_spec (ds : dict (list A)) : forall s sp vals,
  NoDup (keys ds) ->
  (forall k, k ∈ keys ds -> k ∉ keys sp) ->
  merge_data_set_loop A ds s sp vals
  = ((s + length (concat (values ds)))%nat, sp ++ slices_from A s ds, vals ++ values ds).
Proof.
  induction ds as [|[n v] ds IH]; intros s sp vals Hnd Hfresh; simpl.
  - rewrite Nat.add_0_r, !app_nil_r. reflexivity.
  - apply NoDup_cons in Hnd as [Hn Hnd].
    rewrite dict_set_fresh by (apply Hfresh; left).
    rewrite IH; [|exact Hnd|].
    + rewrite length_app, <- !app_assoc. simpl. do 2 f_equal. lia.
    + intros k Hk. rewrite keys_app. simpl. intros Hin.
      apply elem_of_app in Hin as [Hin|Hin].
      * apply (Hfresh k); [right; exact Hk|exact Hin].
      * apply list_elem_of_singleton in Hin. subst k. contradiction.
Qed.

Lemma split_data_set_loop_spec (ds : dict (list A)) : forall pre post acc,
  NoDup (keys ds) ->
  (forall k, k ∈ keys ds -> k ∉ keys acc) ->
  split_data_set_loop A (slices_from A (length pre) ds)
    (pre ++ concat (values ds) ++ post) acc
  = acc ++ ds.
Proof.
  induction ds as [|[n v] ds IH]; intros pre post acc Hnd Hfresh; simpl.
  - rewrite app_nil_r. reflexivity.
  - apply NoDup_cons in Hnd as [Hn Hnd].
    rewrite <- (app_assoc v), getitem_middle.
    rewrite dict_set_fresh by (apply Hfresh; left).
    replace (length pre + length v)%nat with (length (pre ++ v))
      by (rewrite length_app; reflexivity).
    replace (pre ++ v ++ concat (values ds) ++ post)
      with ((pre ++ v) ++ concat (values ds) ++ post)
      by (rewrite <- app_assoc; reflexivity).
    rewrite IH; [rewrite <- app_assoc; reflexivity|exact Hnd|].
    intros k Hk. rewrite keys_app. simpl. intros Hin.
    apply elem_of_app in Hin as [Hin|Hin].
    + apply (Hfresh k); [right; exact Hk|exact Hin].
    + apply list_elem_of_singleton in Hin. subst k. contradiction.
Qed.

Lemma sum_lengths (l : list (list A)) : sum_list (map length l) = length (concat l).
Proof.
  induction l as [|a l IH]; simpl; [reflexivity|].
  rewrite length_app, IH. reflexivity.
Qed.

End DataSetFacts.

Section RoundTrip.

Variable A : Type.

Lemma keys_merged_of (m : dict (tracer_value A)) : keys (merged_of A m) = keys m.
Proof.
  unfold merged_of, keys. rewrite map_map. reflexivity.
Qed.

Lemma keys_split_of_subset (m : dict (tracer_value A)) k : k ∈ keys (split_of A m) -> k ∈ keys m.
Proof.
  induction m as [|[t v] m IH]; simpl; [auto|].
  destruct v as [a|ds]; simpl; intros H.
  - right. exact (IH H).
  - apply elem_of_cons in H as [->|H]; [left|right; exact (IH H)].
Qed.

Lemma np_concatenate_nonempty (ds : dict (list A)) :
  ds <> [] -> np_concatenate A (values ds) = Ok (concat (values ds)).
Proof. destruct ds; [contradiction|reflexivity]. Qed.

Lemma merge_loop_spec (m : dict (tracer_value A)) : forall merged split,
  well_keyed A m -> data_sets_nonempty A m ->
  (forall k, k ∈ keys m -> (k ∉ keys merged) /\ (k ∉ keys split)) ->
  merge_loop A m merged split
  = Ok (merged ++ merged_of A m, split ++ split_of A m).
Proof.
  induction m as [|[t v] m IH]; intros merged split (Hnd & Hin) Hne Hfresh; simpl.
  - rewrite !app_nil_r. reflexivity.
  - apply NoDup_cons in Hnd as [Ht Hnd].
    assert (Hwk : well_keyed A m).
    { split; [exact Hnd|]. intros t' ds' H. apply (Hin t'). right. exact H. }
    assert (Hne' : data_sets_nonempty A m).
    { intros t' ds' H. apply (Hne t'). right. exact H. }
    destruct (Hfresh t ltac:(left)) as [Hm Hs].
    assert (Hfresh' : forall (mg : dict (list A)) (sp : dict (dict slice)),
              keys mg = keys merged ++ [t] ->
              (forall k, k ∈ keys sp -> k ∈ keys split \/ k = t) ->
              forall k, k ∈ keys m -> (k ∉ keys mg) /\ (k ∉ keys sp)).
    { intros mg sp Hmg Hsp k Hk. destruct (Hfresh k ltac:(right; exact Hk)) as [H1 H2].
      assert (k <> t) by (intros ->; contradiction).
      split.
      - rewrite Hmg. intros H'. apply elem_of_app in H' as [H'|H']; [contradiction|].
        apply list_elem_of_singleton in H'. contradiction.
      - intros H'. destruct (Hsp k H'); contradiction. }
    destruct v as [a|ds].
    + rewrite dict_set_fresh by exact Hm.
      rewrite IH; [rewrite <- !app_assoc; reflexivity|exact Hwk|exact Hne'|].
      apply Hfresh'; [rewrite keys_app; reflexivity|auto].
    + rewrite merge_data_set_loop_spec;
        [|apply (Hin t); left|intros k _; apply not_elem_of_nil].
      change ([] ++ values ds) with (values ds).
      change (0 + length (concat (values ds)))%nat with (length (concat (values ds))).
      cbv beta iota. rewrite dict_set_fresh by exact Hs.
      rewrite np_concatenate_nonempty by (apply (Hne t); left).
      unfold rbind. rewrite Nat.eqb_refl. rewrite dict_set_fresh by exact Hm.
      rewrite IH; [rewrite <- !app_assoc; reflexivity|exact Hwk|exact Hne'|].
      apply Hfresh'.
      * rewrite keys_app. reflexivity.
      * intros k Hk. rewrite keys_app in Hk.
        apply elem_of_app in Hk as [Hk|Hk]; [left; exact Hk|right].
        apply list_elem_of_singleton in Hk. exact Hk.
Qed.

Lemma dict_get_split_of (m : dict (tracer_value A)) t :
  NoDup (keys m) ->
  (forall ds, (t, DataSets ds) ∈ m -> dict_get t (split_of A m) = Some (slices_from A 0 ds))
  /\ (forall a, (t, Array a) ∈ m -> dict_get t (split_of A m) = None).
Proof.
  induction m as [|[t' v] m IH]; intros Hnd.
  - split; intros x H; apply elem_of_nil in H; contradiction.
  - apply NoDup_cons in Hnd as [Ht Hnd]. destruct (IH Hnd) as [IH1 IH2].
    split; intros x H; apply elem_of_cons in H as [H|H].
    + inversion H; subst. simpl. destruct (decide (t' = t')); [reflexivity|contradiction].
    + assert (t <> t') by (intros ->; apply Ht; exact (elem_of_keys _ _ _ H)).
      simpl. destruct v; simpl; [|destruct (decide (t = t')); [contradiction|]];
        apply IH1; exact H.
    + inversion H; subst. simpl. apply dict_get_fresh.
      intros Hk. apply Ht. apply keys_split_of_subset. exact Hk.
    + assert (t <> t') by (intros ->; apply Ht; exact (elem_of_keys _ _ _ H)).
      simpl. destruct v; simpl; [|destruct (decide (t = t')); [contradiction|]];
        apply IH2 with x; exact H.
Qed.

Lemma split_loop_spec (m : dict (tracer_value A)) (sd : dict (dict (slice))) : forall acc,
  well_keyed A m ->
  (forall k, k ∈ keys m -> k ∉ keys acc) ->
  (forall t ds, (t, DataSets ds) ∈ m -> dict_get t sd = Some (slices_from A 0 ds)) ->
  (forall t a, (t, Array a) ∈ m -> dict_get t sd = None) ->
  split_loop A (merged_of A m) sd acc = Ok (acc ++ m).
Proof.
  induction m as [|[t v] m IH]; intros acc (Hnd & Hin) Hfresh Hds Harr; simpl.
  - rewrite app_nil_r. reflexivity.
  - apply NoDup_cons in Hnd as [Ht Hnd].
    assert (Hwk : well_keyed A m).
    { split; [exact Hnd|]. intros t' ds' H. apply (Hin t'). right. exact H. }
    assert (Hfresh' : forall x, forall k, k ∈ keys m -> k ∉ keys (acc ++ [(t, x)])).
    { intros x k Hk. rewrite keys_app. intros H'.
      apply elem_of_app in H' as [H'|H'].
      - apply (Hfresh k); [right; exact Hk|exact H'].
      - apply list_elem_of_singleton in H'. simpl in H'. subst k. contradiction. }
    destruct v as [a|ds]; simpl.
    + rewrite (Harr t a) by left.
      rewrite dict_set_fresh by (apply Hfresh; left).
      rewrite IH; [rewrite <- app_assoc; reflexivity|exact Hwk|apply Hfresh'| |].
      * intros t' ds' H. apply Hds. right. exact H.
      * intros t' a' H. apply Harr with a'. right. exact H.
    + rewrite (Hds t ds) by left.
      pose proof (split_data_set_loop_spec A ds [] [] []
                    (Hin t ds ltac:(left))
                    (fun k _ => not_elem_of_nil k)) as Hsp.
      simpl in Hsp. rewrite app_nil_r in Hsp. rewrite Hsp.
      rewrite sum_lengths, Nat.eqb_refl.
      rewrite dict_set_fresh by (apply Hfresh; left).
      rewrite IH; [rewrite <- app_assoc; reflexivity|exact Hwk|apply Hfresh'| |].
      * intros t' ds' H. apply Hds. right. exact H.
      * intros t' a' H. apply Harr with a'. right. exact H.
Qed.

(** C6 (as amended). Merge and split round trip: for a mapping of tracers
    to arrays or to non-empty mappings of named arrays, merging succeeds
    and splitting the merged arrays with the recorded slices gives back the
    mapping itself, in the same order; plain arrays pass through both. *)
Theorem split_merge_round_trip (m : dict (tracer_value A)) :
  well_keyed A m -> data_sets_nonempty A m ->
  exists merged split,
    _merge_data_sets A m = Ok (merged, split)
    /\ _split_data_sets A merged split = Ok m
    /\ merged = merged_of A m.
Proof.
  intros Hwk Hne. exists (merged_of A m), (split_of A m).
  split; [|split; [|reflexivity]].
  - unfold _merge_data_sets. rewrite merge_loop_spec; [reflexivity|exact Hwk|exact Hne|].
    intros k _. split; apply not_elem_of_nil.
  - unfold _split_data_sets.
    rewrite split_loop_spec; [reflexivity|exact Hwk| | |].
    + intros k _. apply not_elem_of_nil.
    + intros t ds H. apply (dict_get_split_of m t (proj1 Hwk)). exact H.
    + intros t a H. apply (proj2 (dict_get_split_of m t (proj1 Hwk)) a). exact H.
Qed.

End RoundTrip.

Lemma example_points_well_formed :
  well_keyed Z example_points /\ data_sets_nonempty Z example_points.
Proof.
  split; [split|].
  - apply (bool_decide_unpack _). vm_compute. reflexivity.
  - intros t ds H. unfold example_points in H.
    repeat (apply elem_of_cons in H as [H|H]); simplify_eq.
    + apply (bool_decide_unpack _). vm_compute. reflexivity.
    + apply elem_of_nil in H. contradiction.
  - intros t ds H. unfold example_points in H.
    repeat (apply elem_of_cons in H as [H|H]); simplify_eq.
    + discriminate.
    + apply elem_of_nil in H. contradiction.
Defined.

Lemma split_merge_round_trip_witness :
  exists merged split,
    _merge_data_sets Z example_points = Ok (merged, split)
    /\ _split_data_sets Z merged split = Ok example_points
    /\ merged = merged_of Z example_points.
Proof.
  exact (split_merge_round_trip Z example_points
           (proj1 example_points_well_formed) (proj2 example_points_well_formed)).
Defined.

Example example_points_merged :
  _merge_data_sets Z example_points
  = Ok ([("po4", [1; 2; 3]); ("dop", [4; 5])],
        [("po4", [("woa", (0, 2)%nat); ("wod", (2, 3)%nat)])]).
Proof. reflexivity. Qed.

(** C6, as stated, fails for a tracer whose mapping of data sets is empty:
    there is nothing to concatenate and merging raises. *)
Lemma merge_of_no_data_sets_raises :
  _merge_data_sets Z no_data_sets
  = Raise (ValueError "need at least one array to concatenate").
Proof. reflexivity. Qed.

(** ** Factor ids *)

Example factor_ids_two_components :
  factor_ids 2 [1; 2; 3]%float [1; 1; 1]%float 0.01 [1.01; 2; 2.985]%float
  = [FactorIdInt 0 1; FactorIdFloat 2 (-1.5)].
Proof. vm_compute. reflexivity. Qed.

(** The double 0.015 at precision 2: the product with 100 is the double
    1.5, which is rounded to 2. *)
Example factor_id_of_0_015 :
  scaled 2 0.015 = 1.5%float
  /\ factor_ids 2 [0]%float [1]%float 1 [0.015]%float = [FactorIdFloat 0 0.02].
Proof. vm_compute. split; reflexivity. Qed.

(** A typical value of zero: the step multiplier is infinite and is kept
    in the float template. *)
Example factor_id_of_zero_typical_value :
  factor_ids 2 [0]%float [0]%float 1 [0.5]%float = [FactorIdFloat 0 infinity].
Proof. vm_compute. reflexivity. Qed.

Section FactorIdFacts.

Variable PRECISION : nat.
Variable p0 typical : list float.
Variable step : float.

Lemma where_different_elem (a b : list float) : forall i k,
  k ∈ where_different i a b
  <-> exists j, k = (i + j)%nat /\ (j < length a)%nat /\ (j < length b)%nat
                /\ (nth j a 0 =? nth j b 0)%float = false.
Proof.
  revert b. induction a as [|x a IH]; intros b i k.
  - simpl. split; [intros H; apply elem_of_nil in H; contradiction|].
    intros (j & _ & Hj & _). simpl in Hj. lia.
  - destruct b as [|y b].
    + simpl. split; [intros H; apply elem_of_nil in H; contradiction|].
      intros (j & _ & _ & Hj & _). simpl in Hj. lia.
    + simpl where_different.
      assert (Htail : k ∈ where_different (S i) a b
                <-> exists j, k = (i + S j)%nat /\ (S j < length (x :: a))%nat
                      /\ (S j < length (y :: b))%nat
                      /\ (nth (S j) (x :: a) 0 =? nth (S j) (y :: b) 0)%float = false).
      { rewrite IH. split; intros (j & Hk & Ha & Hb & Hne); exists j; simpl in *;
          repeat split; try lia; exact Hne. }
      destruct (x =? y)%float eqn:Hxy.
      * rewrite Htail. split.
        -- intros (j & H). exists (S j). exact H.
        -- intros (j & Hk & Ha & Hb & Hne). destruct j as [|j].
           ++ simpl in Hne. congruence.
           ++ exists j. auto.
      * rewrite elem_of_cons, Htail. split.
        -- intros [->|(j & H)].
           ++ exists 0%nat. simpl. repeat split; try lia. exact Hxy.
           ++ exists (S j). exact H.
        -- intros (j & Hk & Ha & Hb & Hne). destruct j as [|j].
           ++ left. lia.
           ++ right. exists j. auto.
Qed.





End FactorIdFacts.



(** The same with multipliers that are binary fractions, where every
    operation is exact: 1/256 and 1/128 differ by less than 0.01 and are
    quantized to 0 and to 0.01. *)
Example factor_ids_split_between_binary_fractions :
  factor_ids 2 [0]%float [1]%float 1 [0.00390625]%float = [FactorIdInt 0 0]
  /\ factor_ids 2 [0]%float [1]%float 1 [0.0078125]%float = [FactorIdFloat 0 0.01]
  /\ (0.0078125 - 0.00390625 <? 0.01)%float = true.
Proof. vm_compute. repeat split; reflexivity. Qed.

(** ** Requests without tracers *)

Section NoTracers.

Variable solver : World -> dir -> JobConfig -> Z * Q.
Variable self : Model_Database.
Variable V : Type.

Lemma check_tracers_nil w : check_tracers self (Some []) w = Ok ([], w).
Proof. reflexivity. Qed.

Lemma trajectory_without_tracers tlf run_dir_ model_parameters w :
  _trajectory_with_load_function solver self V tlf run_dir_ model_parameters (Some []) w
  = Ok ([], w).
Proof. reflexivity. Qed.

(** [_df] with no tracer returns the empty mapping and leaves the world as
    it is: no directory is resolved, no job started. *)
Lemma df_without_tracers fd_points fd_value pd_dirname precision tlf itc order acc w :
  order = None \/ order = Some 1 \/ order = Some 2 ->
  _df solver self V fd_points fd_value pd_dirname precision tlf (Some []) itc order acc w
  = Ok ([], w).
Proof. intros [-> | [-> | ->]]; reflexivity. Qed.

(** [f_all] with no tracer does what resolving [run_dir] does, and nothing
    more: it starts no trajectory job. *)
Lemma f_all_without_tracers load time_dim w :
  f_all solver self V load time_dim (Some []) w
  = (run_dir solver self ;;; ret []) w.
Proof.
  unfold f_all, _f, bind. simpl.
  destruct (run_dir solver self w) as [[d w']|]; reflexivity.
Qed.

End NoTracers.

(** C8, evaluated where no spinup run exists yet: [f_all] with no tracer
    returns the empty mapping, but only after a spinup job has been started
    and waited for. *)
Theorem f_all_without_tracers_starts_spinup :
  exists w',
    f_all ideal_solver or_model Z no_trajectories 1 (Some []) empty_world = Ok ([], w')
    /\ submitted w' = [RunDir "spinup" 0]
    /\ waited w' = [RunDir "spinup" 0].
Proof. eexists. vm_compute. repeat split; reflexivity. Qed.

(** ** The derivative fan-out *)









Lemma makedirs_true_set_dirs d w :
  exists g, makedirs d true w = Ok (tt, set_dirs g w).
Proof.
  unfold makedirs, bind, get_world. destruct (decide (d ∈ dirs w)).
  - exists (fun s => s). destruct w. reflexivity.
  - eexists. reflexivity.
Qed.

Section FanOut.

Variable solver : World -> dir -> JobConfig -> Z * Q.
Variable self : Model_Database.
Variable partial_derivative_dirname : list factor_id -> string.
Variable PRECISION : nat.
Variable include_total_concentration : bool.
Variable parameters_len : nat.
Variable undisturbed typical_values : list float.
Variable derivative_dir_ : string.
Variable spinup_matching_run_dir : dir.

Local Abbreviation check := (check_partial_derivative_dir self).
Local Abbreviation start :=
  (start_partial_derivative_run solver self partial_derivative_dirname PRECISION
     include_total_concentration parameters_len undisturbed typical_values
     derivative_dir_ spinup_matching_run_dir).
Local Abbreviation pd_of :=
  (partial_derivative_dir_of self partial_derivative_dirname PRECISION undisturbed
     typical_values derivative_dir_).









(** What follows the probe when it finds no run to reuse. *)
Local Abbreviation resubmit job_options pd p :=
  (remove_recursively pd true ;;;
   job_options' <- set_best_nodes_setup self job_options ;;
   start_run_parameters <-
     convert_partial_derivative_parameters_to_start_run_parameters
       include_total_concentration parameters_len p ;;
   start_run solver self (fst start_run_parameters) pd
     (partial_derivative_spinup_years self) 0 (Some job_options') false None
     (Some (map (output_file spinup_matching_run_dir) (tracers (model_options self))))
     (snd start_run_parameters) true false ;;;
   ret job_options').



Lemma real_years_world d ip w y w' : real_years d ip w = Ok (y, w') -> w' = w.
Proof.
  destruct d as [sd i| |]; simpl; unfold bind, load_job, ret.
  - generalize 0. induction i as [|i IH]; intros acc; simpl;
      unfold bind, load_job, ret; destruct (jobs w !! _); destruct ip;
      try congruence. apply IH.
  - destruct (jobs w !! _); congruence.
  - destruct (jobs w !! _); congruence.
Qed.

Lemma is_run_matching_options_only_warns self0 rd o ip w b w' :
  is_run_matching_options self0 rd o ip w = Ok (b, w') ->
  w' = w \/ exists x, w' = add_warning x w.
Proof.
  destruct rd as [d|]; simpl; [|unfold ret; intros H; left; congruence].
  unfold bind.
  destruct (real_years d ip w) as [[ry w1]|] eqn:Hy; [|discriminate].
  apply real_years_world in Hy. subst w1.
  unfold real_tolerance, bind, load_job.
  destruct (jobs w !! d); [|discriminate]. unfold ret.
  destruct (String.eqb (combination o) "and").
  - match goal with |- context [if ?c then warn _ else _] => destruct c end;
      simpl; intros H; injection H as _ <-;
      [right; eexists; reflexivity|left; reflexivity].
  - destruct (String.eqb (combination o) "or"); [|discriminate].
    intros H. left. congruence.
Qed.




End FanOut.



(** The same stencil point a second time: the run started by the first
    call is found and reused, nothing is started. *)
Example fan_out_second_call_reuses :
  example_pd = Dir "derivative/partial_derivative_0_+1"
  /\ submitted after_first_start = [example_pd]
  /\ removed after_first_start = [example_pd]
  /\ waited after_first_start = []
  /\ submitted after_second_start = [example_pd]
  /\ removed after_second_start = [example_pd]
  /\ waited after_second_start = []
  /\ (last_year <$> jobs after_second_start !! example_pd) = Some 100.
Proof. vm_compute. repeat split; reflexivity. Qed.

(** * Further properties of the run database *)

(** ** Waiting for a run *)

Lemma wait_until_run_finished_ok d mro w j :
  jobs w !! d = Some j ->
  exists w',
    wait_until_run_finished d mro w = Ok (tt, w')
    /\ jobs w' !! d = Some (mark_finished mro j)
    /\ other_jobs_kept d w w'
    /\ waited w' = waited w ++ [d]
    /\ submitted w' = submitted w /\ dirs w' = dirs w /\ removed w' = removed w
    /\ warnings w' = warnings w.
Proof.
  intros Hj. unfold wait_until_run_finished, bind.
  rewrite (load_job_Some _ _ _ Hj).
  unfold make_read_only_input, make_read_only_output, job_wait_until_finished,
    bind, modify, ret.
  unfold other_jobs_kept.
  destruct mro; (eexists; split; [reflexivity|]);
    cbn [jobs set_jobs add_waited waited submitted dirs removed warnings];
    (split; [rewrite ?lookup_alter_eq, Hj; reflexivity|]);
    (split; [intros d' Hd'; rewrite ?lookup_alter_ne by congruence; reflexivity|]);
    repeat split.
Qed.

Lemma wait_until_run_finished_missing d mro w :
  jobs w !! d = None ->
  wait_until_run_finished d mro w = Raise (JobOptionFileError d).
Proof.
  intros Hj. unfold wait_until_run_finished, bind.
  rewrite (load_job_None _ _ Hj). reflexivity.
Qed.

(** ** Starting a run *)

Lemma job_options_for_kind_spinup self w :
  job_options_for_kind self "spinup" w = Ok (spinup_job_options (job_options self), w).
Proof. reflexivity. Qed.

Lemma job_options_for_kind_trajectory self w :
  job_options_for_kind self "trajectory" w
  = Ok (trajectory_job_options (job_options self), w).
Proof. reflexivity. Qed.

Section StartRun.

Variable solver : World -> dir -> JobConfig -> Z * Q.
Variable self : Model_Database.

Lemma start_run_effect params d y tol jo wt ic files tcf mro wait w :
  exists w',
    start_run solver self params d y tol jo wt ic files tcf mro wait w = Ok (tt, w')
    /\ jobs w' !! d
       = Some (let j := started_job solver self w d
                          (run_config self params y tol jo wt ic files tcf) mro in
               if wait then mark_finished mro j else j)
    /\ other_jobs_kept d w w'
    /\ submitted w' = submitted w ++ [d]
    /\ waited w' = (if wait then waited w ++ [d] else waited w)
    /\ dirs w' = {[d]} ∪ dirs w /\ removed w' = removed w
    /\ warnings w' = warnings w.
Proof.
  set (c := run_config self params y tol jo wt ic files tcf).
  assert (H1 : exists w1,
    (write_and_start solver self d c ;;; make_read_only_input d mro) w = Ok (tt, w1)
    /\ jobs w1 !! d = Some (started_job solver self w d c mro)
    /\ other_jobs_kept d w w1
    /\ submitted w1 = submitted w ++ [d] /\ waited w1 = waited w
    /\ dirs w1 = {[d]} ∪ dirs w /\ removed w1 = removed w
    /\ warnings w1 = warnings w).
  { unfold write_and_start, make_read_only_input, bind, get_world, modify, ret,
      other_jobs_kept.
    destruct mro; (eexists; split; [reflexivity|]);
      cbn [jobs set_jobs set_dirs add_submitted waited submitted dirs removed warnings];
      (split; [rewrite ?lookup_alter_eq, lookup_insert_eq; reflexivity|]);
      (split; [intros d' Hd';
               rewrite ?lookup_alter_ne, lookup_insert_ne by congruence; reflexivity|]);
      repeat split. }
  destruct H1 as (w1 & Hrun & Hj & Hothers & Hsub & Hwait & Hdirs & Hrem & Hwarn).
  change (start_run solver self params d y tol jo wt ic files tcf mro wait)
    with (write_and_start solver self d c ;;; make_read_only_input d mro ;;;
          if wait then wait_until_run_finished d mro else ret tt).
  unfold bind in Hrun |- *.
  destruct (write_and_start solver self d c w) as [[[] wa]|]; [|discriminate].
  rewrite Hrun. destruct wait.
  - destruct (wait_until_run_finished_ok d mro w1 _ Hj)
      as (w' & -> & Hj' & Ho' & Hw' & Hs' & Hd' & Hr' & Hwn').
    exists w'. split; [reflexivity|]. split; [exact Hj'|].
    split; [intros d' Hne; rewrite (Ho' d' Hne); apply Hothers, Hne|].
    repeat split; congruence.
  - exists w1. split; [reflexivity|]. repeat split; assumption.
Qed.

End StartRun.

(** ** Extending a chain *)

Lemma make_new_run_dir_next sd w n :
  contiguous sd w n ->
  exists w',
    make_new_run_dir sd w = Ok (RunDir sd n, w')
    /\ contiguous sd w' (S n)
    /\ jobs w' = jobs w /\ submitted w' = submitted w /\ waited w' = waited w
    /\ removed w' = removed w /\ warnings w' = warnings w.
Proof.
  intros Hc. unfold make_new_run_dir, bind.
  destruct (makedirs_true_set_dirs (Dir sd) w) as (g & Hmk).
  destruct (makedirs_exist_ok (Dir sd) w) as (w1 & Hmk' & Hd & _).
  rewrite Hmk in Hmk'. injection Hmk' as <-. rewrite Hmk.
  assert (Hc1 : contiguous sd (set_dirs g w) n).
  { intros i. rewrite Hd, <- (Hc i). split; [intros [H|H]; [exact H|discriminate]|auto]. }
  unfold get_world. rewrite (contiguous_length _ _ _ Hc1).
  assert (Hnew : RunDir sd n ∉ dirs (set_dirs g w)).
  { rewrite (Hc1 n). lia. }
  rewrite (makedirs_new _ _ _ Hnew). eexists. split; [reflexivity|].
  split; [|repeat split].
  intros i. cbn [dirs set_dirs]. cbn [dirs set_dirs] in Hc1.
  rewrite elem_of_union, elem_of_singleton, (Hc1 i). split.
  - intros [H|H]; [simplify_eq|]; lia.
  - intros H. destruct (decide (i = n)) as [->|Hne]; [left; reflexivity|right; lia].
Qed.

Lemma chain_results_kept sd k : forall w w' js,
  results_kept sd k w w' ->
  chain w sd k = Some js ->
  exists js', chain w' sd k = Some js'
              /\ total_years js' = total_years js
              /\ achieved_tolerance js' = achieved_tolerance js
              /\ (forall jl, last js = Some jl ->
                    exists jl', last js' = Some jl' /\ jobs w' !! RunDir sd k = Some jl').
Proof.
  induction k as [|k IH]; intros w w' js Hk Hc.
  - simpl in Hc. pose proof (Hk 0%nat ltac:(lia)) as H0.
    destruct (jobs w !! RunDir sd 0%nat) as [j|]; [|discriminate].
    destruct (jobs w' !! RunDir sd 0%nat) as [j'|] eqn:Hj'; [|discriminate].
    simpl in Hc, H0. injection Hc as <-. injection H0 as Hy Ht.
    exists [j']. simpl. rewrite Hj'. simpl. split; [reflexivity|].
    unfold total_years, achieved_tolerance. simpl.
    split; [lia|]. split; [exact Ht|]. intros jl _. eauto.
  - destruct (chain_prefix _ _ _ _ Hc) as (js0 & j & Hc0 & Hj & ->).
    destruct (IH w w' js0 (fun i Hi => Hk i ltac:(lia)) Hc0)
      as (js0' & Hc0' & Hy0 & _).
    pose proof (Hk (S k) ltac:(lia)) as HS. rewrite Hj in HS.
    destruct (jobs w' !! RunDir sd (S k)) as [j'|] eqn:Hj'; [|discriminate].
    simpl in HS. injection HS as Hy Ht.
    exists (js0' ++ [j']). simpl. rewrite Hc0'. simpl. rewrite Hj'. simpl.
    split; [reflexivity|]. rewrite !total_years_snoc.
    unfold achieved_tolerance. rewrite !last_snoc.
    split; [lia|]. split; [exact Ht|]. intros jl _. eauto.
Qed.

Lemma rule_holds_same_results self o js js' :
  total_years js' = total_years js ->
  achieved_tolerance js' = achieved_tolerance js ->
  rule_holds self o js' = rule_holds self o js.
Proof. unfold rule_holds. intros -> ->. reflexivity. Qed.

Lemma is_run_matching_options_or self sd i js o w :
  chain w sd i = Some js ->
  combination o = "or" ->
  is_run_matching_options self (Some (RunDir sd i)) o true w
  = Ok (rule_holds self o js, w).
Proof.
  intros H Hc. unfold is_run_matching_options, rule_holds, bind.
  rewrite (real_years_chain _ _ _ _ H), (real_tolerance_chain _ _ _ _ H), Hc.
  reflexivity.
Qed.

Section OrRequests.

Variable solver : World -> dir -> JobConfig -> Z * Q.
Variable self : Model_Database.

Lemma finish_last_run_present d w j :
  jobs w !! d = Some j ->
  exists w1,
    finish_last_run self (Some d) w = Ok (Some d, w1)
    /\ jobs w1 !! d = Some (mark_finished true j)
    /\ other_jobs_kept d w w1
    /\ waited w1 = waited w ++ [d]
    /\ submitted w1 = submitted w /\ dirs w1 = dirs w /\ removed w1 = removed w
    /\ warnings w1 = warnings w.
Proof.
  intros Hj. unfold finish_last_run, bind. unfold ret at 1.
  destruct (wait_until_run_finished_ok d true w j Hj) as (w1 & -> & H).
  exists w1. split; [reflexivity|exact H].
Qed.

(** The run an [or] request adds to a chain whose last run does not match. *)
Lemma or_request_step (o : SpinupOptions) (w : World) (k : nat) (js : list Job)
    (depth : nat) :
  combination o = "or" ->
  contiguous (spinup_dir self) w (S k) ->
  chain w (spinup_dir self) k = Some js ->
  rule_holds self o js = false ->
  exists w' jl wq,
    matching_run_dir solver self (S depth) o w = Ok (RunDir (spinup_dir self) (S k), w')
    /\ last js = Some jl
    /\ jobs w' !! RunDir (spinup_dir self) (S k)
       = Some (mark_finished true
                 (started_job solver self wq (RunDir (spinup_dir self) (S k))
                    (run_config self (parameters (model_options self))
                       (years o - total_years js) (tolerance o)
                       (Some (spinup_job_options (job_options self))) false None
                       (Some (tracer_output_files jl)) 1) true))
    /\ results_kept (spinup_dir self) k w w'
    /\ contiguous (spinup_dir self) w' (S (S k))
    /\ submitted w' = submitted w ++ [RunDir (spinup_dir self) (S k)]
    /\ waited w' = waited w ++ [RunDir (spinup_dir self) k; RunDir (spinup_dir self) (S k)]
    /\ removed w' = removed w /\ warnings w' = warnings w.
Proof.
  intros Hor Hcont Hchain Hrule. set (sd := spinup_dir self) in *.
  destruct (chain_last _ _ _ _ Hchain) as (jl & Hjl & Hlast).
  cbn [matching_run_dir]. unfold matching_run_dir_body. cbv zeta. fold sd.
  unfold bind at 1.
  rewrite (last_run_dir_last _ _ _ _ (contiguous_length _ _ _ Hcont) Hjl).
  unfold bind at 1. rewrite (is_run_matching_options_or _ _ _ _ _ _ Hchain Hor), Hrule.
  cbv iota. unfold bind at 1.
  destruct (finish_last_run_present _ _ _ Hjl)
    as (w1 & -> & Hj1 & Ho1 & Hw1 & Hs1 & Hd1 & Hr1 & Hwn1).
  rewrite Hor, String.eqb_refl. cbv iota.
  assert (Hcont1 : contiguous sd w1 (S k)).
  { intros i. rewrite Hd1. apply Hcont. }
  destruct (make_new_run_dir_next _ _ _ Hcont1)
    as (w2 & Hnew & Hcont2 & Hj2 & Hs2 & Hw2 & Hr2 & Hwn2).
  unfold bind at 1. rewrite Hnew.
  assert (Hkept : results_kept sd k w w2).
  { intros i Hi. rewrite Hj2. destruct (decide (i = k)) as [->|Hne].
    - rewrite Hj1, Hjl. reflexivity.
    - rewrite Ho1 by congruence. reflexivity. }
  destruct (chain_results_kept _ _ _ _ _ Hkept Hchain)
    as (js2 & Hchain2 & Hy2 & Ht2 & _).
  unfold bind at 1. unfold bind at 1.
  rewrite (real_years_chain _ _ _ _ Hchain2).
  unfold bind at 1.
  assert (Hl2 : jobs w2 !! RunDir sd k = Some (mark_finished true jl))
    by (rewrite Hj2; exact Hj1).
  rewrite (load_job_Some _ _ _ Hl2). cbn [tracer_output_files mark_finished].
  rewrite Hy2. unfold bind at 1. rewrite job_options_for_kind_spinup.
  destruct (start_run_effect solver self (parameters (model_options self))
              (RunDir sd (S k)) (years o - total_years js) (tolerance o)
              (Some (spinup_job_options (job_options self)))
              false None (Some (tracer_output_files jl)) 1 true true w2)
    as (w3 & -> & Hj3 & Ho3 & Hs3 & Hw3 & Hd3 & Hr3 & Hwn3).
  exists w3, jl, w2. split; [reflexivity|]. split; [exact Hlast|].
  split; [exact Hj3|]. split; [|split; [|repeat split]].
  - intros i Hi. rewrite Ho3 by (intros E; injection E; lia). apply Hkept, Hi.
  - intros i. rewrite Hd3, elem_of_union, elem_of_singleton, (Hcont2 i).
    split; [intros [E|H]; [injection E as ->|]; lia|].
    intros H. right. lia.
  - rewrite Hs3, Hs2, Hs1. reflexivity.
  - rewrite Hw3, Hw2, Hw1, <- app_assoc. reflexivity.
  - congruence.
  - congruence.
Qed.

(** X1. An [or] request on a chain whose last run does not match adds one run
    at the next index: it is started from the output files of the last
    run, for the years still missing and at the requested tolerance, and
    it is waited for, as is the last run before it.  The years and the
    tolerances of the runs before stay as they are. *)
Theorem or_request_extends_by_missing_years (o : SpinupOptions) (w : World)
    (k : nat) (js : list Job) (depth : nat) :
  combination o = "or" ->
  contiguous (spinup_dir self) w (S k) ->
  chain w (spinup_dir self) k = Some js ->
  run_matches self w (RunDir (spinup_dir self) k) o false ->
  exists w' j jl,
    matching_run_dir solver self (S depth) o w = Ok (RunDir (spinup_dir self) (S k), w')
    /\ jobs w' !! RunDir (spinup_dir self) (S k) = Some j
    /\ last js = Some jl
    /\ job_years (job_config j) = years o - total_years js
    /\ job_tolerance (job_config j) = tolerance o
    /\ job_tracer_input_files (job_config j) = Some (tracer_output_files jl)
    /\ job_initial_constant_concentrations (job_config j) = None
    /\ finished j = true
    /\ results_kept (spinup_dir self) k w w'
    /\ contiguous (spinup_dir self) w' (S (S k))
    /\ submitted w' = submitted w ++ [RunDir (spinup_dir self) (S k)]
    /\ waited w' = waited w ++ [RunDir (spinup_dir self) k; RunDir (spinup_dir self) (S k)]
    /\ removed w' = removed w.
Proof.
  intros Hor Hcont Hchain Hno.
  apply (run_matches_rule self w _ _ js o false Hchain (or_intror Hor)) in Hno.
  destruct (or_request_step o w k js depth Hor Hcont Hchain Hno)
    as (w' & jl & wq & Hrun & Hlast & Hj & Hkept & Hc & Hs & Hw & Hr & _).
  exists w'. eexists. exists jl. split; [exact Hrun|]. split; [exact Hj|].
  split; [exact Hlast|].
  repeat (split; [first [assumption|reflexivity]|]). assumption.
Qed.

(** X2. With a solver that runs the years it is asked for, the run an [or]
    request adds satisfies the request, and the request made again returns
    this run and leaves the world as it is: nothing is started twice. *)
Theorem or_request_is_satisfied_afterwards (o : SpinupOptions) (w : World)
    (k : nat) (js : list Job) (depth : nat) :
  reaches_years solver ->
  combination o = "or" ->
  contiguous (spinup_dir self) w (S k) ->
  chain w (spinup_dir self) k = Some js ->
  run_matches self w (RunDir (spinup_dir self) k) o false ->
  exists w',
    matching_run_dir solver self (S depth) o w = Ok (RunDir (spinup_dir self) (S k), w')
    /\ run_matches self w' (RunDir (spinup_dir self) (S k)) o true
    /\ forall depth',
         matching_run_dir solver self (S depth') o w'
         = Ok (RunDir (spinup_dir self) (S k), w').
Proof.
  intros Hsolver Hor Hcont Hchain Hno.
  apply (run_matches_rule self w _ _ js o false Hchain (or_intror Hor)) in Hno.
  destruct (or_request_step o w k js depth Hor Hcont Hchain Hno)
    as (w' & jl & wq & Hrun & Hlast & Hj & Hkept & Hc & Hs & Hw & Hr & _).
  set (sd := spinup_dir self) in *.
  exists w'. split; [exact Hrun|].
  destruct (chain_results_kept _ _ _ _ _ Hkept Hchain)
    as (js' & Hchain' & Hy' & Ht' & _).
  set (jn := mark_finished true _) in Hj.
  assert (HchainS : chain w' sd (S k) = Some (js' ++ [jn])).
  { simpl. rewrite Hchain'. simpl. rewrite Hj. reflexivity. }
  assert (Hyes : rule_holds self o (js' ++ [jn]) = true).
  { unfold rule_holds. rewrite Hor. simpl String.eqb. cbv iota.
    apply orb_true_iff. left. apply Z.leb_le.
    rewrite total_years_snoc, Hy'. unfold jn. cbn [last_year mark_finished started_job].
    match goal with |- _ <= _ + fst (solver ?a ?b ?c) =>
      pose proof (Hsolver a b c) as Hge end.
    cbn [job_years run_config] in Hge. lia. }
  assert (Hno' : rule_holds self o js' = false).
  { rewrite (rule_holds_same_results self o js js' Hy' Ht'). exact Hno. }
  split.
  - exists w'. rewrite (is_run_matching_options_or _ _ _ _ _ _ HchainS Hor), Hyes.
    reflexivity.
  - intros depth'. cbn [matching_run_dir]. unfold matching_run_dir_body. cbv zeta.
    fold sd. unfold bind at 1.
    rewrite (last_run_dir_last _ _ _ _ (contiguous_length _ _ _ Hc) Hj).
    unfold bind at 1.
    rewrite (is_run_matching_options_or _ _ _ _ _ _ HchainS Hor), Hyes. cbv iota.
    destruct (String.eqb (match_type o) "equal_or_nearest_better"); [|reflexivity].
    rewrite nearest_better_loop_S. unfold bind.
    rewrite (is_run_matching_options_or _ _ _ _ _ _ Hchain' Hor), Hno'.
    reflexivity.
Qed.

(** X3. An [or] request on a spinup directory without runs, when runs are not
    started from the closest parameters: run 0 is created and started for
    the requested years and tolerance, from the constant concentrations or
    from the concentration files, and is waited for. *)
Theorem or_request_cold_start (o : SpinupOptions) (w : World) (depth : nat) :
  combination o = "or" ->
  contiguous (spinup_dir self) w 0 ->
  start_from_closest_parameters self = false ->
  exists w' j,
    matching_run_dir solver self (S depth) o w = Ok (RunDir (spinup_dir self) 0, w')
    /\ jobs w' !! RunDir (spinup_dir self) 0 = Some j
    /\ job_years (job_config j) = years o
    /\ job_tolerance (job_config j) = tolerance o
    /\ job_initial_constant_concentrations (job_config j)
       = (if use_constant_concentrations (model_options self)
          then Some (initial_constant_concentrations self) else None)
    /\ job_tracer_input_files (job_config j)
       = (if use_constant_concentrations (model_options self)
          then None else Some (initial_concentration_files self))
    /\ finished j = true
    /\ contiguous (spinup_dir self) w' 1
    /\ submitted w' = submitted w ++ [RunDir (spinup_dir self) 0]
    /\ waited w' = waited w ++ [RunDir (spinup_dir self) 0]
    /\ removed w' = removed w.
Proof.
  intros Hor Hcont Hclosest. set (sd := spinup_dir self) in *.
  cbn [matching_run_dir]. unfold matching_run_dir_body. cbv zeta. fold sd.
  unfold bind at 1.
  rewrite (last_run_dir_none _ _ (contiguous_length _ _ _ Hcont)).
  unfold bind at 1. cbn [is_run_matching_options]. unfold ret at 1. cbv iota.
  unfold bind at 1. unfold finish_last_run. rewrite Hclosest.
  unfold bind at 1 2. unfold ret at 1 2 3. cbv beta iota.
  rewrite Hor, String.eqb_refl. cbv iota.
  destruct (make_new_run_dir_next _ _ _ Hcont)
    as (w2 & Hnew & Hcont2 & Hj2 & Hs2 & Hw2 & Hr2 & Hwn2).
  unfold bind at 1. rewrite Hnew. unfold bind at 1.
  destruct (use_constant_concentrations (model_options self));
    unfold bind at 1; rewrite job_options_for_kind_spinup;
    match goal with |- context [start_run ?a ?b ?c ?d ?e ?f ?g ?h ?i ?j ?k ?l ?m w2] =>
      destruct (start_run_effect a b c d e f g h i j k l m w2)
        as (w3 & -> & Hj3 & Ho3 & Hs3 & Hw3 & Hd3 & Hr3 & Hwn3)
    end;
    (exists w3; eexists; split; [reflexivity|]; split; [exact Hj3|]);
    repeat (split; [reflexivity|]);
    (split; [intros i; rewrite Hd3, elem_of_union, elem_of_singleton, (Hcont2 i);
             split; [intros [E|H]; [injection E as ->|]; lia|intros H; right; lia]|]);
    (split; [rewrite Hs3, Hs2; reflexivity|]);
    (split; [rewrite Hw3, Hw2; reflexivity|congruence]).
Qed.

(** X4. With runs to be started from the closest parameters, an [or] request
    on a spinup directory without runs, when the closest parameter set has
    no run either, raises [TypeError]: [closest_parameter_set_dir] is
    [None] and is joined to the spinup directory name. *)
Theorem or_request_without_closest_run (o : SpinupOptions) (w : World)
    (closest : string) (depth : nat) :
  contiguous (spinup_dir self) w 0 ->
  start_from_closest_parameters self = true ->
  closest_spinup_dir_candidate self = Some closest ->
  contiguous closest w 0 ->
  matching_run_dir solver self (S depth) o w = Raise TypeError.
Proof.
  intros Hcont Hclosest Hcand Hnone. set (sd := spinup_dir self) in *.
  cbn [matching_run_dir]. unfold matching_run_dir_body. cbv zeta. fold sd.
  unfold bind at 1.
  rewrite (last_run_dir_none _ _ (contiguous_length _ _ _ Hcont)).
  unfold bind at 1. cbn [is_run_matching_options]. unfold ret at 1. cbv iota.
  unfold bind at 1. unfold finish_last_run. rewrite Hclosest.
  unfold bind at 1. unfold bind at 1. unfold closest_spinup_dir. rewrite Hcand.
  unfold bind at 1.
  rewrite (last_run_dir_none _ _ (contiguous_length _ _ _ Hnone)).
  reflexivity.
Qed.

End OrRequests.

(** ** Requests that are already satisfied *)

Lemma real_years_loop_ok_chain sd i : forall acc w y w',
  real_years_loop sd i true acc w = Ok (y, w') -> exists js, chain w sd i = Some js.
Proof.
  induction i as [|i IH]; intros acc w y w'; simpl; unfold bind, load_job;
    destruct (jobs w !! RunDir sd _) as [j|] eqn:Hj; try discriminate.
  - intros _. eexists. reflexivity.
  - intros H. destruct (IH _ _ _ _ H) as (js & ->). simpl. eauto.
Qed.

Lemma is_run_matching_options_ok_chain self sd i o w b w' :
  is_run_matching_options self (Some (RunDir sd i)) o true w = Ok (b, w') ->
  exists js, chain w sd i = Some js.
Proof.
  unfold is_run_matching_options, bind, real_years.
  destruct (real_years_loop sd i true 0 w) as [[y w1]|] eqn:Hy; [|discriminate].
  intros _. exact (real_years_loop_ok_chain _ _ _ _ _ _ Hy).
Qed.

Lemma last_run_dir_inv sd w d w' :
  last_run_dir sd w = Ok (Some d, w') ->
  w' = w /\ exists k j, d = RunDir sd k /\ length (run_dirs sd w) = S k
                        /\ jobs w !! RunDir sd k = Some j.
Proof.
  unfold last_run_dir, bind, get_world, load_job, ret.
  destruct (0 <=? Z.of_nat (length (run_dirs sd w)) - 1) eqn:Hle; [|discriminate].
  apply Z.leb_le in Hle.
  destruct (jobs w !! RunDir sd _) as [j|] eqn:Hj; [|discriminate].
  intros H. injection H as <- <-. split; [reflexivity|].
  exists (Z.to_nat (Z.of_nat (length (run_dirs sd w)) - 1)), j.
  split; [reflexivity|]. split; [lia|exact Hj].
Qed.

Section SatisfiedRequests.

Variable solver : World -> dir -> JobConfig -> Z * Q.
Variable self : Model_Database.

(** The branch of [matching_run_dir] taken when the last run matches. *)
Lemma matching_branch (o : SpinupOptions) (w : World) (k : nat) (js : list Job)
    (depth : nat) :
  length (run_dirs (spinup_dir self) w) = S k ->
  chain w (spinup_dir self) k = Some js ->
  combination o = "and" \/ combination o = "or" ->
  rule_holds self o js = true ->
  exists j w',
    matching_run_dir solver self (S depth) o w = Ok (RunDir (spinup_dir self) j, w')
    /\ (j <= k)%nat
    /\ (match_type o <> "equal_or_nearest_better" -> j = k)
    /\ same_files w w' /\ removed w' = removed w.
Proof.
  intros Hl H Hv Hr.
  destruct (chain_last _ _ _ _ H) as (jl & Hjl & _).
  destruct (is_run_matching_options_chain self _ _ _ _ o H Hv) as (w1 & Hm & Hs1).
  assert (Hrem1 : removed w1 = removed w).
  { destruct (is_run_matching_options_only_warns _ _ _ _ _ _ _ Hm) as [->|(x & ->)];
      reflexivity. }
  cbn [matching_run_dir]. unfold matching_run_dir_body, bind.
  rewrite (last_run_dir_last _ _ _ _ Hl Hjl), Hm, Hr.
  destruct (String.eqb_spec (match_type o) "equal_or_nearest_better") as [Hmt|Hmt].
  - assert (H1 : chain w1 (spinup_dir self) k = Some js).
    { rewrite (chain_same_jobs w w1); [exact H|apply Hs1]. }
    assert (Hloop : forall i v js0, chain v (spinup_dir self) i = Some js0 ->
              exists j v', nearest_better_loop self (spinup_dir self) i o v
                           = Ok (RunDir (spinup_dir self) j, v')
                           /\ (j <= i)%nat /\ same_files v v' /\ removed v' = removed v).
    { induction i as [|i IH]; intros v js0 Hc.
      - exists 0%nat, v. split; [reflexivity|]. split; [lia|].
        split; [apply same_files_refl|reflexivity].
      - rewrite nearest_better_loop_S. unfold bind.
        pose proof (chain_take _ _ _ _ i Hc ltac:(lia)) as Hi.
        destruct (is_run_matching_options_chain self _ _ _ _ o Hi Hv) as (v1 & Hm1 & Hsv).
        rewrite Hm1.
        assert (Hremv : removed v1 = removed v).
        { destruct (is_run_matching_options_only_warns _ _ _ _ _ _ _ Hm1)
            as [->|(x & ->)]; reflexivity. }
        destruct (rule_holds self o (take (S i) js0)).
        + assert (Hi1 : chain v1 (spinup_dir self) i = Some (take (S i) js0)).
          { rewrite (chain_same_jobs v v1); [exact Hi|apply Hsv]. }
          destruct (IH _ _ Hi1) as (j & v' & -> & Hle & Hs' & Hr').
          exists j, v'. split; [reflexivity|]. split; [lia|].
          split; [exact (same_files_trans _ _ _ Hsv Hs')|congruence].
        + exists (S i), v1. split; [reflexivity|]. split; [lia|].
          split; [exact Hsv|exact Hremv]. }
    destruct (Hloop k w1 js H1) as (j & w' & -> & Hle & Hs2 & Hr2).
    exists j, w'. split; [reflexivity|]. split; [exact Hle|].
    split; [intros Hne; contradiction|].
    split; [exact (same_files_trans _ _ _ Hs1 Hs2)|congruence].
  - exists k, w1. split; [reflexivity|]. split; [lia|].
    split; [reflexivity|]. split; [exact Hs1|exact Hrem1].
Qed.

(** X5. When [is_matching_run_available] answers true, the property [run_dir]
    gives a run of the chain and starts no job: the directories, the job
    records and what was submitted, waited for and removed stay as they are. *)
Theorem available_run_is_returned_without_job (w w1 : World) :
  is_matching_run_available self w = Ok (true, w1) ->
  exists j w',
    run_dir solver self w = Ok (RunDir (spinup_dir self) j, w')
    /\ (S j <= length (run_dirs (spinup_dir self) w))%nat
    /\ same_files w w' /\ removed w' = removed w.
Proof.
  unfold is_matching_run_available, bind. cbv zeta.
  destruct (last_run_dir (spinup_dir self) w) as [[[d|] w0]|] eqn:Hl;
    [|destruct (last_run_dir_world _ _ _ _ Hl); discriminate|discriminate].
  destruct (last_run_dir_inv _ _ _ _ Hl) as (-> & k & jl & -> & Hlen & Hjl).
  intros Hm.
  destruct (is_run_matching_options_ok_chain _ _ _ _ _ _ _ Hm) as (js & Hc).
  pose proof (run_matches_valid self w _ k js _ true Hc (ex_intro _ w1 Hm)) as Hv.
  pose proof (proj1 (run_matches_rule self w _ k js _ true Hc Hv) (ex_intro _ w1 Hm))
    as Hr.
  destruct (matching_branch _ w k js 1 Hlen Hc Hv Hr) as (j & w' & Hrun & Hle & _ & Hs & Hrem).
  exists j, w'. split; [exact Hrun|]. split; [lia|]. split; assumption.
Qed.

(** X6. A matching last run is returned as it is when the match type is not
    [equal_or_nearest_better]; no job is started. *)
Theorem matching_last_run_is_returned (o : SpinupOptions) (w : World) (k : nat)
    (js : list Job) (depth : nat) :
  length (run_dirs (spinup_dir self) w) = S k ->
  chain w (spinup_dir self) k = Some js ->
  run_matches self w (RunDir (spinup_dir self) k) o true ->
  match_type o <> "equal_or_nearest_better" ->
  exists w',
    matching_run_dir solver self (S depth) o w = Ok (RunDir (spinup_dir self) k, w')
    /\ same_files w w' /\ removed w' = removed w.
Proof.
  intros Hl Hc Hm Hmt.
  pose proof (run_matches_valid _ _ _ _ _ _ _ Hc Hm) as Hv.
  pose proof (proj1 (run_matches_rule _ _ _ _ _ _ _ Hc Hv) Hm) as Hr.
  destruct (matching_branch o w k js depth Hl Hc Hv Hr) as (j & w' & Hrun & _ & Hj & Hs & Hrem).
  rewrite (Hj Hmt) in Hrun. exists w'. split; [exact Hrun|]. split; assumption.
Qed.

End SatisfiedRequests.

(** X7. A run that satisfies a request satisfies every weaker request with the
    same combination: fewer years and a larger tolerance. *)
Theorem weaker_request_matches (self : Model_Database) (w : World) (sd : string)
    (i : nat) (js : list Job) (o o' : SpinupOptions) :
  chain w sd i = Some js ->
  run_matches self w (RunDir sd i) o true ->
  combination o' = combination o ->
  years o' <= years o ->
  (tolerance o <= tolerance o')%Q ->
  run_matches self w (RunDir sd i) o' true.
Proof.
  intros Hc Hm Hcomb Hy Ht.
  pose proof (run_matches_valid _ _ _ _ _ _ _ Hc Hm) as Hv.
  assert (Hv' : combination o' = "and" \/ combination o' = "or") by (rewrite Hcomb; exact Hv).
  apply (run_matches_rule _ _ _ _ _ _ _ Hc Hv').
  apply (run_matches_rule _ _ _ _ _ _ _ Hc Hv) in Hm.
  unfold rule_holds in *. rewrite Hcomb.
  destruct (String.eqb (combination o) "and").
  - apply orb_true_iff in Hm as [Hm|Hm]; apply orb_true_iff; [left|right; exact Hm].
    apply andb_true_iff in Hm as [H1 H2]. apply andb_true_iff. split.
    + apply Z.leb_le. apply Z.leb_le in H1. lia.
    + apply Qle_bool_iff. apply Qle_bool_iff in H2.
      exact (Qle_trans _ _ _ H2 Ht).
  - destruct (String.eqb (combination o) "or"); [|discriminate].
    apply orb_true_iff in Hm as [Hm|Hm]; apply orb_true_iff; [left|right].
    + apply Z.leb_le. apply Z.leb_le in Hm. lia.
    + apply Qle_bool_iff. apply Qle_bool_iff in Hm.
      exact (Qle_trans _ _ _ Hm Ht).
Qed.

(** ** Nesting and errors of matching_run_dir *)

Lemma matching_run_dir_body_ext solver self f g o :
  (forall o', combination o' = "or" -> f o' = g o') ->
  matching_run_dir_body solver self f o = matching_run_dir_body solver self g o.
Proof.
  intros H. unfold matching_run_dir_body. cbv zeta.
  rewrite !(H (SpinupOptions_of self _ _ "or") eq_refl). reflexivity.
Qed.

(** X8. The calls [matching_run_dir] makes to itself are never nested deeper
    than one level: they are [or] requests, and an [or] request makes no
    call to itself. *)
Theorem matching_run_dir_nesting (solver : World -> dir -> JobConfig -> Z * Q)
    (self : Model_Database) (o : SpinupOptions) (n : nat) :
  matching_run_dir solver self (S (S n)) o = matching_run_dir solver self 2 o
  /\ (forall f, combination o = "or" ->
        matching_run_dir solver self (S n) o = matching_run_dir_body solver self f o).
Proof.
  split.
  - cbn [matching_run_dir]. apply matching_run_dir_body_ext. intros o' Ho'.
    repeat change (matching_run_dir_body solver self (matching_run_dir solver self ?m))
      with (matching_run_dir solver self (S m)).
    rewrite (matching_run_dir_or_depth solver self o' n Ho').
    reflexivity.
  - intros f Hor. cbn [matching_run_dir]. apply matching_run_dir_or_no_rec. exact Hor.
Qed.

(** X9. An unknown combination keyword: with a last run whose chain loads the
    request raises the [ValueError] of [is_run_matching_options]; without
    any run, and without a start from the closest parameters, it fails the
    assertion [combination == 'and'] instead. *)
Theorem matching_run_dir_unknown_combination
    (solver : World -> dir -> JobConfig -> Z * Q) (self : Model_Database)
    (o : SpinupOptions) (depth : nat) :
  combination o <> "and" -> combination o <> "or" ->
  (forall w k js,
     length (run_dirs (spinup_dir self) w) = S k ->
     chain w (spinup_dir self) k = Some js ->
     matching_run_dir solver self (S depth) o w
     = Raise (combination_unknown (combination o)))
  /\ (forall w,
        length (run_dirs (spinup_dir self) w) = 0%nat ->
        start_from_closest_parameters self = false ->
        matching_run_dir solver self (S depth) o w = Raise AssertionError).
Proof.
  intros Hand Hor. apply String.eqb_neq in Hand, Hor. split.
  - intros w k js Hl Hc. destruct (chain_last _ _ _ _ Hc) as (jl & Hjl & _).
    cbn [matching_run_dir]. unfold matching_run_dir_body, bind.
    rewrite (last_run_dir_last _ _ _ _ Hl Hjl).
    unfold is_run_matching_options, bind.
    rewrite (real_years_chain _ _ _ _ Hc), (real_tolerance_chain _ _ _ _ Hc).
    rewrite Hand, Hor. reflexivity.
  - intros w Hl Hclosest.
    cbn [matching_run_dir]. unfold matching_run_dir_body. cbv zeta.
    unfold bind at 1. rewrite (last_run_dir_none _ _ Hl).
    unfold bind at 1. cbn [is_run_matching_options]. unfold ret at 1. cbv iota.
    unfold bind at 1. unfold finish_last_run. rewrite Hclosest.
    unfold bind at 1 2. unfold ret at 1 2 3. cbv beta iota.
    rewrite Hor. unfold bind at 1. rewrite Hand. reflexivity.
Qed.

(** ** Reading a chain *)

(** X10. [real_years] over a chain with a missing record raises
    [JobOptionFileError] for the last run, counted from the run asked for
    backwards, whose record is missing. *)
Theorem real_years_missing_record (sd : string) (w : World) (i k : nat) :
  (k <= i)%nat ->
  jobs w !! RunDir sd k = None ->
  (forall m, (k < m <= i)%nat -> is_Some (jobs w !! RunDir sd m)) ->
  real_years (RunDir sd i) true w = Raise (JobOptionFileError (RunDir sd k)).
Proof.
  intros Hk Hnone Hsome. unfold real_years. generalize 0.
  induction i as [|i IH]; intros acc.
  - assert (k = 0%nat) as -> by lia. simpl. unfold bind.
    rewrite (load_job_None _ _ Hnone). reflexivity.
  - destruct (decide (k = S i)) as [->|Hne].
    + simpl. unfold bind. rewrite (load_job_None _ _ Hnone). reflexivity.
    + destruct (Hsome (S i) ltac:(lia)) as (j & Hj).
      simpl. unfold bind. rewrite (load_job_Some _ _ _ Hj).
      apply IH; [lia|]. intros m Hm. apply Hsome. lia.
Qed.

(** ** Tracers and trajectories *)

Lemma string_le_total : Total string_le.
Proof. intros a b. unfold string_le. apply String.leb_total. Qed.

Lemma check_each_supported self ts w :
  Forall (supported self) ts ->
  forM ts (fun tracer =>
    if bool_decide (tracer ∈ tracers (model_options self)) then ret tt
    else raise (tracer_unsupported tracer (model_name (model_options self)))) w
  = Ok (map (fun _ => tt) ts, w).
Proof.
  induction 1 as [|t ts Ht _ IH]; [reflexivity|].
  cbn [forM]. unfold bind at 1. rewrite (bool_decide_eq_true_2 _ Ht).
  unfold ret at 1. unfold bind at 1. rewrite IH. reflexivity.
Qed.

Lemma check_tracers_cases_aux (self : Model_Database) (w : World) :
  (forall ts, Forall (supported self) ts -> check_tracers self (Some ts) w = Ok (ts, w))
  /\ (forall pre t post,
        Forall (supported self) pre -> ~ supported self t ->
        check_tracers self (Some (pre ++ t :: post)) w
        = Raise (tracer_unsupported t (model_name (model_options self)))).
Proof.
  split.
  - intros ts Hts. unfold check_tracers, bind.
    rewrite (check_each_supported _ _ _ Hts). reflexivity.
  - intros pre t post Hpre Ht. unfold check_tracers, bind.
    induction Hpre as [|x pre Hx _ IH].
    + cbn [app forM]. unfold bind. rewrite (bool_decide_eq_false_2 _ Ht). reflexivity.
    + cbn [app forM]. unfold bind at 1. rewrite (bool_decide_eq_true_2 _ Hx).
      unfold ret at 1. unfold bind at 1.
      destruct (forM (pre ++ t :: post) _ w) as [[a w']|e]; [discriminate|].
      injection IH as ->. reflexivity.
Qed.

(** X12. [check_tracers]: supported tracers are returned as they are given, the
    first unsupported tracer raises the [ValueError] naming it, and without
    tracers the tracers of the model are returned in sorted order. *)
Theorem check_tracers_cases (self : Model_Database) (w : World) :
  (forall ts, Forall (supported self) ts -> check_tracers self (Some ts) w = Ok (ts, w))
  /\ (forall pre t post,
        Forall (supported self) pre -> ~ supported self t ->
        check_tracers self (Some (pre ++ t :: post)) w
        = Raise (tracer_unsupported t (model_name (model_options self))))
  /\ (exists ts, check_tracers self None w = Ok (ts, w)
                 /\ ts ≡ₚ tracers (model_options self)
                 /\ Sorted string_le ts).
Proof.
  destruct (check_tracers_cases_aux self w) as [H1 H2].
  split; [exact H1|]. split; [exact H2|].
  eexists. split; [reflexivity|]. split.
  - apply merge_sort_Permutation.
  - apply (@Sorted_merge_sort _ string_le _ string_le_total).
Qed.

Section Trajectories.

Variable solver : World -> dir -> JobConfig -> Z * Q.
Variable self : Model_Database.
Variable V : Type.
Variable trajectory_load_function : dir -> string -> M (list V).
Variable vals : dir -> string -> list V.

(** The load function reads the values [vals] and changes nothing. *)
Hypothesis loads : forall d t w, trajectory_load_function d t w = Ok (vals d t, w).

Lemma load_tracers_fresh d ts : forall acc w,
  NoDup ts -> (forall t, t ∈ ts -> t ∉ keys acc) ->
  load_tracers V trajectory_load_function d ts acc w
  = Ok (acc ++ values_of (vals d) ts, w).
Proof.
  induction ts as [|t ts IH]; intros acc w Hnd Hfresh.
  - simpl. rewrite app_nil_r. reflexivity.
  - apply NoDup_cons in Hnd as [Ht Hnd]. cbn [load_tracers]. unfold bind.
    rewrite loads. rewrite dict_set_fresh by (apply Hfresh; left).
    rewrite IH; [|exact Hnd|].
    + unfold values_of. simpl. rewrite <- app_assoc. reflexivity.
    + intros x Hx. rewrite keys_app. intros Hin.
      apply elem_of_app in Hin as [Hin|Hin].
      * apply (Hfresh x); [right; exact Hx|exact Hin].
      * apply list_elem_of_singleton in Hin. simpl in Hin. subst x. contradiction.
Qed.

Lemma keys_dict_set {W} (k : string) (v : W) (d : dict W) :
  NoDup (keys d) ->
  NoDup (keys (dict_set k v d))
  /\ (forall x, x ∈ keys (dict_set k v d) <-> x = k \/ x ∈ keys d).
Proof.
  induction d as [|[k' v'] d IH]; simpl; intros Hnd.
  - split; [apply NoDup_singleton|]. intros x. rewrite list_elem_of_singleton.
    split; [auto|intros [H|H]; [exact H|apply elem_of_nil in H; contradiction]].
  - apply NoDup_cons in Hnd as [Hk Hnd]. destruct (IH Hnd) as [IH1 IH2].
    destruct (decide (k = k')) as [->|Hne]; simpl.
    + split; [apply NoDup_cons; auto|]. intros x. rewrite elem_of_cons. tauto.
    + split.
      * apply NoDup_cons. split; [|exact IH1]. rewrite IH2. intros [H|H]; auto.
      * intros x. rewrite !elem_of_cons, IH2. tauto.
Qed.

Lemma load_tracers_keys d ts : forall acc w,
  NoDup (keys acc) ->
  exists r, load_tracers V trajectory_load_function d ts acc w = Ok (r, w)
            /\ NoDup (keys r)
            /\ (forall x, x ∈ keys r <-> x ∈ ts \/ x ∈ keys acc).
Proof.
  induction ts as [|t ts IH]; intros acc w Hnd.
  - exists acc. split; [reflexivity|]. split; [exact Hnd|].
    intros x. split; [auto|intros [H|H]; [apply elem_of_nil in H; contradiction|exact H]].
  - cbn [load_tracers]. unfold bind. rewrite loads.
    destruct (keys_dict_set t (vals d t) acc Hnd) as [Hnd' Hk'].
    destruct (IH (dict_set t (vals d t) acc) w Hnd') as (r & -> & Hr & Hkr).
    exists r. split; [reflexivity|]. split; [exact Hr|].
    intros x. rewrite Hkr, Hk', elem_of_cons. tauto.
Qed.

Lemma trajectory_job_started ts run_dir_ model_parameters jr w :
  ts <> [] -> Forall (supported self) ts ->
  jobs w !! run_dir_ = Some jr ->
  exists w3,
    (trajectory_dir <- mkdtemp ;;
     job <- load_job run_dir_ ;;
     start_run solver self model_parameters trajectory_dir 1 0
       (Some (trajectory_job_options (job_options self))) true None
       (Some (tracer_output_files job)) 1 false true ;;;
     ret trajectory_dir) w = Ok (TmpDir (next_tmp w), w3)
    /\ other_jobs_kept (TmpDir (next_tmp w)) w w3
    /\ submitted w3 = submitted w ++ [TmpDir (next_tmp w)]
    /\ waited w3 = waited w ++ [TmpDir (next_tmp w)]
    /\ removed w3 = removed w.
Proof.
  intros Hne Hsup Hjr. unfold bind at 1.
  unfold mkdtemp, bind at 1, get_world. unfold bind at 1. unfold modify at 1.
  unfold bind at 1. unfold modify at 1. unfold ret at 1.
  unfold bind at 1.
  assert (Hload : load_job run_dir_ (set_dirs (union {[TmpDir (next_tmp w)]}) (bump_tmp w))
                  = Ok (jr, set_dirs (union {[TmpDir (next_tmp w)]}) (bump_tmp w))).
  { apply load_job_Some. exact Hjr. }
  rewrite Hload. unfold bind at 1.
  match goal with |- context [start_run ?a ?b ?c ?d ?e ?f ?g ?h ?i ?j ?k ?l ?m ?u] =>
    destruct (start_run_effect a b c d e f g h i j k l m u)
      as (w3 & -> & Hj3 & Ho3 & Hs3 & Hw3 & Hd3 & Hr3 & Hwn3)
  end.
  exists w3. split; [reflexivity|]. split; [exact Ho3|]. repeat split; assumption.
Qed.

(** X13. Loading the trajectories of distinct supported tracers: one job is
    started in a fresh temporary directory and waited for, each tracer is
    loaded, and the temporary directory is removed with its job record;
    the mapping returned holds the tracers in the order given.  Every
    other job record stays as it is. *)
Theorem trajectory_is_loaded_from_one_job (ts : list string) (run_dir_ : dir)
    (model_parameters : list float) (jr : Job) (w : World) :
  ts <> [] -> NoDup ts -> Forall (supported self) ts ->
  jobs w !! run_dir_ = Some jr ->
  exists w',
    _trajectory_with_load_function solver self V trajectory_load_function run_dir_
      model_parameters (Some ts) w
    = Ok (values_of (vals (TmpDir (next_tmp w))) ts, w')
    /\ submitted w' = submitted w ++ [TmpDir (next_tmp w)]
    /\ waited w' = waited w ++ [TmpDir (next_tmp w)]
    /\ removed w' = removed w ++ [TmpDir (next_tmp w)]
    /\ jobs w' !! TmpDir (next_tmp w) = None
    /\ other_jobs_kept (TmpDir (next_tmp w)) w w'.
Proof.
  intros Hne Hnd Hsup Hjr.
  destruct (trajectory_job_started ts run_dir_ model_parameters jr w Hne Hsup Hjr)
    as (w3 & Hjob & Ho3 & Hs3 & Hw3 & Hr3).
  unfold _trajectory_with_load_function. unfold bind at 1.
  rewrite (proj1 (check_tracers_cases_aux self w) ts Hsup).
  assert (Hlen : (0 <? length ts)%nat = true).
  { destruct ts; [contradiction|reflexivity]. }
  rewrite Hlen. unfold bind in Hjob |- *.
  destruct (mkdtemp w) as [[d w1]|]; [|discriminate].
  destruct (load_job run_dir_ w1) as [[job w2]|]; [|discriminate].
  rewrite job_options_for_kind_trajectory.
  destruct (start_run solver self model_parameters d 1 0
              (Some (trajectory_job_options (job_options self))) true None
              (Some (tracer_output_files job)) 1 false true w2) as [[[] w3']|];
    [|discriminate].
  injection Hjob as -> ->.
  rewrite (load_tracers_fresh _ _ [] w3 Hnd); [|intros t _; apply not_elem_of_nil].
  unfold remove_recursively, modify, ret.
  cbn [app]. unfold values_of at 1. rewrite length_map, Nat.eqb_refl.
  unfold assert_, ret. eexists. split; [reflexivity|].
  cbn [submitted waited removed jobs]. unfold other_jobs_kept.
  split; [exact Hs3|]. split; [exact Hw3|]. split; [rewrite Hr3; reflexivity|].
  split; [apply lookup_delete_eq|].
  intros d' Hd'. cbn [jobs]. rewrite lookup_delete_ne by congruence. apply Ho3, Hd'.
Qed.

(** X14. With a tracer named twice the call fails the assertion on the number
    of entries: the mapping holds each name once. *)
Theorem trajectory_of_repeated_tracer_fails (ts : list string) (run_dir_ : dir)
    (model_parameters : list float) (jr : Job) (w : World) :
  ~ NoDup ts -> Forall (supported self) ts ->
  jobs w !! run_dir_ = Some jr ->
  _trajectory_with_load_function solver self V trajectory_load_function run_dir_
    model_parameters (Some ts) w
  = Raise AssertionError.
Proof.
  intros Hdup Hsup Hjr.
  assert (Hne : ts <> []) by (intros ->; apply Hdup; constructor).
  destruct (trajectory_job_started ts run_dir_ model_parameters jr w Hne Hsup Hjr)
    as (w3 & Hjob & _).
  unfold _trajectory_with_load_function. unfold bind at 1.
  rewrite (proj1 (check_tracers_cases_aux self w) ts Hsup).
  assert (Hlen : (0 <? length ts)%nat = true).
  { destruct ts; [contradiction|reflexivity]. }
  rewrite Hlen. unfold bind in Hjob |- *.
  destruct (mkdtemp w) as [[d w1]|]; [|discriminate].
  destruct (load_job run_dir_ w1) as [[job w2]|]; [|discriminate].
  rewrite job_options_for_kind_trajectory.
  destruct (start_run solver self model_parameters d 1 0
              (Some (trajectory_job_options (job_options self))) true None
              (Some (tracer_output_files job)) 1 false true w2) as [[[] w3']|];
    [|discriminate].
  injection Hjob as -> ->.
  destruct (load_tracers_keys (TmpDir (next_tmp w)) ts [] w3 (NoDup_nil_2))
    as (r & Hload & Hr & Hkr).
  rewrite Hload. unfold remove_recursively, modify, ret.
  assert (Hlt : (length r =? length ts)%nat = false).
  { apply Nat.eqb_neq. intros Heq. apply Hdup.
    assert (Hsub : keys r ⊆+ ts).
    { apply NoDup_submseteq; [exact Hr|]. intros x Hx. apply Hkr in Hx as [Hx|Hx];
        [exact Hx|apply elem_of_nil in Hx; contradiction]. }
    assert (Hperm : keys r ≡ₚ ts).
    { apply submseteq_length_Permutation; [exact Hsub|].
      unfold keys. rewrite length_map, Heq. lia. }
    rewrite <- Hperm. exact Hr. }
  rewrite Hlt. reflexivity.
Qed.

End Trajectories.

(** ** Factor ids: further properties *)

(** X16. The reserved factor id, with index -1, is the id of the vectors that
    differ in no component from the undisturbed one, and of no other: the
    ids of every other vector carry the indices of its changed components,
    which are not negative. *)
Theorem reserved_factor_id_only_for_undisturbed (PRECISION : nat)
    (p0 typical : list float) (step : float) (p : list float) :
  (factor_ids PRECISION p0 typical step p = [FactorIdInt (-1) 0]
   <-> changed_parameters_indices p0 p = [])
  /\ (changed_parameters_indices p0 p <> [] ->
      Forall (fun f => 0 <= factor_index f < Z.of_nat (length p))
        (factor_ids PRECISION p0 typical step p)).
Proof.
  assert (Hidx : forall i, factor_index (factor_id_of PRECISION p0 typical step p i)
                           = Z.of_nat i).
  { intros i. unfold factor_id_of. cbv zeta. destruct (is_integer _); reflexivity. }
  split.
  - unfold factor_ids.
    destruct (changed_parameters_indices p0 p) as [|c cs] eqn:Hc;
      [split; reflexivity|].
    split; [|discriminate]. intros H. exfalso.
    apply (f_equal (map factor_index)) in H. simpl in H.
    rewrite Hidx in H. injection H as H _. lia.
  - intros Hne. unfold factor_ids.
    destruct (changed_parameters_indices p0 p) as [|c cs] eqn:Hc; [contradiction|].
    rewrite <- Hc. apply Forall_forall. intros f Hf.
    apply list_elem_of_fmap in Hf as (i & -> & Hi). rewrite Hidx.
    unfold changed_parameters_indices in Hi.
    apply where_different_elem in Hi as (j & -> & Ha & _). simpl. lia.
Qed.

(** ** The parameters of a partial derivative run *)

(** X17. The synthetic concentration-scale parameter is split off: with it, the
    model parameters are all entries but the last and the total
    concentration factor is the last entry; without it the parameters are
    passed on with factor 1.  A vector of another length than expected
    fails the assertion. *)
Theorem partial_derivative_parameters_are_split (include_total_concentration : bool)
    (parameters_len : nat) (p : list float) (w : World) :
  (length p <> parameters_len ->
   convert_partial_derivative_parameters_to_start_run_parameters
     include_total_concentration parameters_len p w = Raise AssertionError)
  /\ (length p = parameters_len -> include_total_concentration = false ->
      convert_partial_derivative_parameters_to_start_run_parameters
        include_total_concentration parameters_len p w = Ok ((p, 1%float), w))
  /\ (length p = parameters_len -> include_total_concentration = true -> p <> [] ->
      exists model_parameters factor,
        convert_partial_derivative_parameters_to_start_run_parameters
          include_total_concentration parameters_len p w
        = Ok ((model_parameters, factor), w)
        /\ p = model_parameters ++ [factor]).
Proof.
  unfold convert_partial_derivative_parameters_to_start_run_parameters, bind.
  split; [|split].
  - intros Hne. apply Nat.eqb_neq in Hne. rewrite Hne. reflexivity.
  - intros Hlen ->. rewrite Hlen, Nat.eqb_refl. reflexivity.
  - intros Hlen -> Hp. rewrite Hlen, Nat.eqb_refl.
    eexists. eexists. split; [reflexivity|]. apply app_removelast_last. exact Hp.
Qed.

(** ** Unpacking the concatenated derivative *)

Section Unpack.

Context {V : Type}.

Lemma max_list_stop_indices (trajectory_list : list (list V)) : forall start,
  max_list (start :: stop_indices V start trajectory_list)
  = (start + length (concat trajectory_list))%nat.
Proof.
  induction trajectory_list as [|tr tl IH]; intros start.
  - simpl. lia.
  - change (stop_indices V start (tr :: tl))
      with ((start + length tr)%nat :: stop_indices V (start + length tr) tl).
    change (max_list (start :: (start + length tr)%nat
                        :: stop_indices V (start + length tr) tl))
      with (Nat.max start (max_list ((start + length tr)%nat
                                       :: stop_indices V (start + length tr) tl))).
    rewrite IH. simpl concat. rewrite length_app. lia.
Qed.

Lemma length_stop_indices (trajectory_list : list (list V)) start :
  length (stop_indices V start trajectory_list) = length trajectory_list.
Proof.
  revert start. induction trajectory_list as [|tr tl IH]; intros start; simpl;
    [reflexivity|]. rewrite IH. reflexivity.
Qed.

Lemma length_concat_same (parts : list (list (list V))) : forall (tl : list (list V)),
  length <$> parts = length <$> tl ->
  length (concat parts) = length (concat tl).
Proof.
  induction parts as [|p ps IH]; intros [|tr tl] H; try discriminate; [reflexivity|].
  simpl in H. injection H as Hl H. simpl. rewrite !length_app, Hl, (IH _ H).
  reflexivity.
Qed.

Lemma unpack_concatenation_spec (tracers_ : list string) :
  forall (trajectory_list : list (list V)) (parts : list (list (list V)))
         (start : nat) (before : list (list V)) (df : dict (list (list V)))
         (w : World),
    NoDup tracers_ ->
    (forall t, t ∈ tracers_ -> t ∉ keys df) ->
    length parts = length tracers_ ->
    length <$> parts = length <$> trajectory_list ->
    length before = start ->
    unpack_concatenation V tracers_ (start :: stop_indices V start trajectory_list)
      (before ++ concat parts) df w
    = Ok (df ++ zip tracers_ parts, w).
Proof.
  induction tracers_ as [|t ts IH];
    intros tl parts start before df w Hnd Hfresh Hlen Hl Hb.
  - simpl. rewrite app_nil_r. reflexivity.
  - destruct parts as [|part parts]; [discriminate|].
    destruct tl as [|tr tl]; [discriminate|].
    simpl in Hl. injection Hl as Hpl Hl. simpl in Hlen. injection Hlen as Hlen.
    apply NoDup_cons in Hnd as [Hnt Hnd]. subst start.
    set (start := length before).
    change (stop_indices V start (tr :: tl))
      with ((start + length tr)%nat :: stop_indices V (start + length tr) tl).
    change (unpack_concatenation V (t :: ts)
              (start :: (start + length tr)%nat :: stop_indices V (start + length tr) tl)
              (before ++ concat (part :: parts)) df w)
      with (unpack_concatenation V ts
              ((start + length tr)%nat :: stop_indices V (start + length tr) tl)
              (before ++ concat (part :: parts))
              (dict_set t (take (start + length tr - start)
                             (drop start (before ++ concat (part :: parts)))) df) w).
    replace (start + length tr - start)%nat with (length part) by lia.
    unfold start at 3. rewrite drop_app_length. simpl concat.
    rewrite take_app_length.
    rewrite dict_set_fresh by (apply Hfresh; left).
    rewrite app_assoc.
    rewrite (IH tl parts (start + length tr)%nat (before ++ part)
               (df ++ [(t, part)]) w Hnd).
    + rewrite <- app_assoc. reflexivity.
    + intros t' Ht'. rewrite keys_app. intros Hin.
      apply elem_of_app in Hin as [Hin|Hin].
      * exact (Hfresh t' (list_elem_of_further _ _ _ Ht') Hin).
      * simpl in Hin. apply list_elem_of_singleton in Hin. subst t'. contradiction.
    + exact Hlen.
    + exact Hl.
    + rewrite length_app, Hpl. reflexivity.
Qed.

(** X18. The stop indices recorded for the trajectories of the tracers cut the
    concatenated derivative back into the parts of the tracers: a
    derivative that is the concatenation of one part for each tracer, each
    as long as the trajectory of its tracer, is unpacked to the mapping of
    each tracer to its part, and the two assertions on the indices made
    before unpacking hold. *)
Theorem unpack_concatenation_round_trip (tracers_ : list string)
    (trajectory_list : list (list V)) (parts : list (list (list V))) (w : World) :
  NoDup tracers_ ->
  length parts = length tracers_ ->
  length <$> parts = length <$> trajectory_list ->
  let tracer_start_stop_indices := 0%nat :: stop_indices V 0 trajectory_list in
  unpack_concatenation V tracers_ tracer_start_stop_indices (concat parts) [] w
  = Ok (zip tracers_ parts, w)
  /\ length tracer_start_stop_indices = (length tracers_ + 1)%nat
  /\ max_list tracer_start_stop_indices = length (concat parts).
Proof.
  intros Hnd Hlen Hl idx. subst idx. split; [|split].
  - apply (unpack_concatenation_spec tracers_ trajectory_list parts 0 [] [] w Hnd);
      [intros t _; apply not_elem_of_nil|exact Hlen|exact Hl|reflexivity].
  - simpl. rewrite length_stop_indices.
    apply (f_equal length) in Hl. rewrite !length_fmap in Hl. lia.
  - rewrite max_list_stop_indices, (length_concat_same _ _ Hl). reflexivity.
Qed.

End Unpack.

(** ** The directories recorded by the first pass *)

Lemma SFeqb_equal a b : SFeqb a b = true <-> SF_equal a b.
Proof.
  destruct a as [s|s| |s m e], b as [s'|s'| |s' m' e']; unfold SFeqb, SF_equal; simpl;
    try (split; [discriminate|intros []]);
    try (split; [intros _; exact I|reflexivity]).
  - destruct s'; split; discriminate || intros [].
  - destruct s'; split; discriminate || intros [].
  - destruct s; split; discriminate || intros [].
  - destruct s, s'; split; discriminate || reflexivity.
  - destruct s; split; discriminate || intros [].
  - destruct s; split; discriminate || intros [].
  - destruct s'; split; discriminate || intros [].
  - change (PosDef.Pos.compare_cont Eq m m') with (Pos.compare m m').
    destruct s, s'; try (split; [discriminate|intros (H & _); discriminate]);
      destruct (Z.compare_spec e e') as [->|Hlt|Hgt];
      destruct (Pos.compare_spec m m') as [->|Hm|Hm]; simpl;
      split; try discriminate; try (intros _; repeat split; reflexivity);
      try reflexivity; intros (_ & Hm' & He'); subst; lia.
Qed.

Lemma float_eqb_sym (x y : float) : (x =? y)%float = true -> (y =? x)%float = true.
Proof.
  rewrite !FloatAxioms.eqb_spec, !SFeqb_equal. unfold SF_equal.
  destruct (Prim2SF x), (Prim2SF y); try tauto; try congruence.
  intros (-> & -> & ->). auto.
Qed.

Lemma float_eqb_trans (x y z : float) :
  (x =? y)%float = true -> (y =? z)%float = true -> (x =? z)%float = true.
Proof.
  rewrite !FloatAxioms.eqb_spec, !SFeqb_equal. unfold SF_equal.
  destruct (Prim2SF x), (Prim2SF y), (Prim2SF z); try tauto; try congruence.
  intros (-> & -> & ->) (-> & -> & ->). auto.
Qed.

Lemma tuple_eqb_sym (a : list float) : forall b,
  tuple_eqb a b = true -> tuple_eqb b a = true.
Proof.
  induction a as [|x a IH]; intros [|y b]; simpl; try discriminate; [reflexivity|].
  rewrite !andb_true_iff. intros [Hxy H]. split; [apply float_eqb_sym, Hxy|apply IH, H].
Qed.

Lemma tuple_eqb_trans (a : list float) : forall b c,
  tuple_eqb a b = true -> tuple_eqb b c = true -> tuple_eqb a c = true.
Proof.
  induction a as [|x a IH]; intros [|y b] [|z c]; simpl; try discriminate;
    [reflexivity|].
  rewrite !andb_true_iff. intros [Hxy H1] [Hyz H2].
  split; [exact (float_eqb_trans _ _ _ Hxy Hyz)|exact (IH _ _ H1 H2)].
Qed.

Lemma tuple_dict_get_set {W} (x k : list float) (v : W) (d : list (list float * W)) :
  tuple_dict_get x (tuple_dict_set k v d)
  = if tuple_eqb x k then Some v else tuple_dict_get x d.
Proof.
  induction d as [|[k' v'] d IH]; simpl.
  - reflexivity.
  - destruct (tuple_eqb k k') eqn:Hk; simpl.
    + destruct (tuple_eqb x k') eqn:Hx.
      * rewrite (tuple_eqb_trans x k' k Hx (tuple_eqb_sym _ _ Hk)). reflexivity.
      * destruct (tuple_eqb x k) eqn:Hxk; [|reflexivity].
        rewrite (tuple_eqb_trans x k k' Hxk Hk) in Hx. discriminate.
    + destruct (tuple_eqb x k') eqn:Hx.
      * destruct (tuple_eqb x k) eqn:Hxk; [|reflexivity].
        rewrite (tuple_eqb_trans k x k' (tuple_eqb_sym _ _ Hxk) Hx) in Hk.
        discriminate.
      * exact IH.
Qed.

Section FanIn.

Variable solver : World -> dir -> JobConfig -> Z * Q.
Variable self : Model_Database.
Variable partial_derivative_dirname : list factor_id -> string.
Variable PRECISION : nat.
Variable include_total_concentration : bool.
Variable parameters_len : nat.
Variable undisturbed typical_values : list float.
Variable derivative_dir_ : string.
Variable spinup_matching_run_dir : dir.

Local Abbreviation start :=
  (start_partial_derivative_run solver self partial_derivative_dirname PRECISION
     include_total_concentration parameters_len undisturbed typical_values
     derivative_dir_ spinup_matching_run_dir).
Local Abbreviation start_all_ :=
  (start_all solver self partial_derivative_dirname PRECISION
     include_total_concentration parameters_len undisturbed typical_values
     derivative_dir_ spinup_matching_run_dir).
Local Abbreviation pd_of :=
  (partial_derivative_dir_of self partial_derivative_dirname PRECISION undisturbed
     typical_values derivative_dir_).

Lemma start_partial_derivative_run_records job_options partial_derivative_dirs p w r w' :
  start job_options partial_derivative_dirs p w = Ok (r, w') ->
  snd r = tuple_dict_set p (pd_of p) partial_derivative_dirs.
Proof.
  unfold start_partial_derivative_run, bind.
  destruct (makedirs _ _ _) as [[[] w1]|e]; [|discriminate].
  destruct (check_partial_derivative_dir _ _ _) as [[b w2]|e]; [|discriminate].
  destruct (negb b).
  - destruct (remove_recursively _ _ _) as [[[] w3]|e]; [|discriminate].
    destruct (set_best_nodes_setup _ _ _) as [[jo w4]|e]; [|discriminate].
    destruct (convert_partial_derivative_parameters_to_start_run_parameters _ _ _ _)
      as [[sp w5]|e]; [|discriminate].
    destruct (start_run _ _ _ _ _ _ _ _ _ _ _ _ _ _) as [[[] w6]|e]; [|discriminate].
    intros H. injection H as <- _. reflexivity.
  - intros H. injection H as <- _. reflexivity.
Qed.

Lemma start_all_other points : forall job_options partial_derivative_dirs w r w' x,
  start_all_ job_options points partial_derivative_dirs w = Ok (r, w') ->
  Forall (fun x' => tuple_eqb x x' = false) points ->
  tuple_dict_get x r = tuple_dict_get x partial_derivative_dirs.
Proof.
  induction points as [|p points IH]; intros jo ds w r w' x H Hx.
  - injection H as <- _. reflexivity.
  - apply Forall_cons in Hx as [Hp Hx]. simpl in H. unfold bind in H.
    destruct (start jo ds p w) as [[r1 w1]|e] eqn:Hs; [|discriminate].
    apply start_partial_derivative_run_records in Hs.
    rewrite (IH _ _ _ _ _ x H Hx), Hs. rewrite tuple_dict_get_set, Hp. reflexivity.
Qed.

(** X19. After the first pass over the points of the finite difference, every
    point that is equal to itself, that is without a NaN among its
    components, has a directory on record, the directory of the last point
    equal to it: the second pass finds a directory for each such point it
    asks for, and the entries present before stay for the keys that are
    equal to no point. *)
Theorem start_all_records_every_point (job_options : JobOptions)
    (points : list (list float))
    (partial_derivative_dirs r : list (list float * dir)) (w w' : World) :
  start_all_ job_options points partial_derivative_dirs w = Ok (r, w') ->
  (forall x, x ∈ points -> tuple_eqb x x = true ->
     exists x', x' ∈ points /\ tuple_eqb x x' = true
                /\ tuple_dict_get x r = Some (pd_of x'))
  /\ (forall x, Forall (fun x' => tuple_eqb x x' = false) points ->
        tuple_dict_get x r = tuple_dict_get x partial_derivative_dirs).
Proof.
  intros H. split; [|intros x Hx; exact (start_all_other _ _ _ _ _ _ _ H Hx)].
  assert (Hgen : forall x,
            existsb (tuple_eqb x) points = true ->
            exists x', x' ∈ points /\ tuple_eqb x x' = true
                       /\ tuple_dict_get x r = Some (pd_of x')).
  { revert job_options partial_derivative_dirs w H.
    induction points as [|p ps IH]; intros jo ds w H x Hex; [discriminate|].
    simpl in H. unfold bind in H.
    destruct (start jo ds p w) as [[r1 w1]|e] eqn:Hs; [|discriminate].
    apply start_partial_derivative_run_records in Hs.
    destruct (existsb (tuple_eqb x) ps) eqn:Hps.
    - destruct (IH _ _ _ H x Hps) as (x' & Hin & Heq & Hget).
      exists x'. split; [right; exact Hin|]. split; assumption.
    - simpl in Hex. rewrite Hps, orb_false_r in Hex.
      exists p. split; [left|]. split; [exact Hex|].
      rewrite (start_all_other _ _ _ _ _ _ x H).
      + rewrite Hs, tuple_dict_get_set, Hex. reflexivity.
      + apply Forall_forall. intros x' Hx'.
        destruct (tuple_eqb x x') eqn:Hxx'; [|reflexivity].
        assert (existsb (tuple_eqb x) ps = true) as Ht; [|congruence].
        apply existsb_exists. exists x'. split; [|exact Hxx'].
        apply list_elem_of_In. exact Hx'. }
  intros x Hx Hrefl. apply Hgen. apply existsb_exists. exists x.
  split; [apply list_elem_of_In; exact Hx|exact Hrefl].
Qed.

End FanIn.

(** ** Instances *)

Lemma contiguous_chain_world (sd : string) (runs : list (Z * Q)) :
  contiguous sd (chain_world sd runs) (length runs).
Proof.
  intros i. unfold chain_world. simpl. rewrite elem_of_list_to_set.
  rewrite elem_of_lookup_imap. split.
  - intros (k & y & Heq & Hl). injection Heq as ->.
    apply lookup_lt_Some in Hl. exact Hl.
  - intros Hi. destruct (lookup_lt_is_Some_2 runs i Hi) as [y Hy].
    exists i, y. split; [reflexivity|exact Hy].
Qed.

Lemma contiguous_empty_world (sd : string) : contiguous sd empty_world 0.
Proof.
  intros i. simpl. split; [|lia]. intros H. apply not_elem_of_empty in H.
  contradiction.
Qed.

Lemma reaches_years_ideal_solver : reaches_years ideal_solver.
Proof. intros w d c. simpl. lia. Qed.

Lemma or_request_extends_by_missing_years_witness :
  exists w' j,
    matching_run_dir ideal_solver or_model 1 (spinup_options (model_options or_model))
      short_spinup
    = Ok (RunDir "spinup" 1, w')
    /\ jobs w' !! RunDir "spinup" 1 = Some j
    /\ job_years (job_config j) = 600
    /\ submitted w' = [RunDir "spinup" 1]
    /\ waited w' = [RunDir "spinup" 0; RunDir "spinup" 1].
Proof.
  destruct (or_request_extends_by_missing_years ideal_solver or_model
              (spinup_options (model_options or_model)) short_spinup 0
              [example_job 400 (1 # 1000)] 0)
    as (w' & j & jl & Hm & Hj & _ & Hy & _ & _ & _ & _ & _ & _ & Hs & Hw & _).
  - reflexivity.
  - exact (contiguous_chain_world "spinup" [(400, 1 # 1000)]).
  - reflexivity.
  - apply (run_matches_rule or_model short_spinup "spinup" 0
             [example_job 400 (1 # 1000)]);
      [reflexivity|right; reflexivity|reflexivity].
  - exists w', j. repeat split; assumption.
Defined.

Lemma or_request_is_satisfied_afterwards_witness :
  exists w',
    matching_run_dir ideal_solver or_model 1 (spinup_options (model_options or_model))
      short_spinup
    = Ok (RunDir "spinup" 1, w')
    /\ matching_run_dir ideal_solver or_model 1
         (spinup_options (model_options or_model)) w'
       = Ok (RunDir "spinup" 1, w').
Proof.
  destruct (or_request_is_satisfied_afterwards ideal_solver or_model
              (spinup_options (model_options or_model)) short_spinup 0
              [example_job 400 (1 # 1000)] 0)
    as (w' & Hm & _ & Hagain).
  - exact reaches_years_ideal_solver.
  - reflexivity.
  - exact (contiguous_chain_world "spinup" [(400, 1 # 1000)]).
  - reflexivity.
  - apply (run_matches_rule or_model short_spinup "spinup" 0
             [example_job 400 (1 # 1000)]);
      [reflexivity|right; reflexivity|reflexivity].
  - exists w'. split; [exact Hm|exact (Hagain 0%nat)].
Defined.

Lemma or_request_cold_start_witness :
  exists w' j,
    matching_run_dir ideal_solver or_model 1 (spinup_options (model_options or_model))
      empty_world
    = Ok (RunDir "spinup" 0, w')
    /\ jobs w' !! RunDir "spinup" 0 = Some j
    /\ job_years (job_config j) = 1000
    /\ job_initial_constant_concentrations (job_config j) = Some []
    /\ job_tracer_input_files (job_config j) = None
    /\ submitted w' = [RunDir "spinup" 0].
Proof.
  destruct (or_request_cold_start ideal_solver or_model
              (spinup_options (model_options or_model)) empty_world 0)
    as (w' & j & Hm & Hj & Hy & _ & Hc & Hf & _ & _ & Hs & _).
  - reflexivity.
  - exact (contiguous_empty_world "spinup").
  - reflexivity.
  - exists w', j. repeat split; assumption.
Defined.

Lemma or_request_without_closest_run_witness :
  matching_run_dir ideal_solver closest_model 1
    (spinup_options (model_options closest_model)) empty_world
  = Raise TypeError.
Proof.
  apply (or_request_without_closest_run ideal_solver closest_model
           (spinup_options (model_options closest_model)) empty_world "closest" 0).
  - exact (contiguous_empty_world "spinup").
  - reflexivity.
  - reflexivity.
  - exact (contiguous_empty_world "closest").
Defined.

Lemma available_run_is_returned_without_job_witness :
  exists j w',
    run_dir ideal_solver or_model long_spinup = Ok (RunDir "spinup" j, w')
    /\ same_files long_spinup w'.
Proof.
  destruct (available_run_is_returned_without_job ideal_solver or_model
              long_spinup long_spinup)
    as (j & w' & Hr & _ & Hs & _).
  - vm_compute. reflexivity.
  - exists j, w'. split; assumption.
Defined.

Lemma matching_last_run_is_returned_witness :
  exists w',
    matching_run_dir ideal_solver or_model 1 (spinup_options (model_options or_model))
      long_spinup
    = Ok (RunDir "spinup" 0, w')
    /\ same_files long_spinup w'.
Proof.
  destruct (matching_last_run_is_returned ideal_solver or_model
              (spinup_options (model_options or_model)) long_spinup 0
              [example_job 1000 0] 0)
    as (w' & Hm & Hs & _).
  - exact (contiguous_length _ _ _ (contiguous_chain_world "spinup" [(1000, 0%Q)])).
  - reflexivity.
  - apply (run_matches_rule or_model long_spinup "spinup" 0 [example_job 1000 0]);
      [reflexivity|right; reflexivity|reflexivity].
  - discriminate.
  - exists w'. split; assumption.
Defined.

Lemma weaker_request_matches_witness :
  run_matches or_model long_spinup (RunDir "spinup" 0)
    {| years := 500; tolerance := 1 # 10; combination := "or";
       match_type := "exact" |} true.
Proof.
  apply (weaker_request_matches or_model long_spinup "spinup" 0 [example_job 1000 0]
           (spinup_options (model_options or_model))).
  - reflexivity.
  - apply (run_matches_rule or_model long_spinup "spinup" 0 [example_job 1000 0]);
      [reflexivity|right; reflexivity|reflexivity].
  - reflexivity.
  - simpl. lia.
  - simpl. discriminate.
Defined.

Lemma matching_run_dir_unknown_combination_witness :
  matching_run_dir ideal_solver example_model 1 unknown_options long_spinup
  = Raise (combination_unknown "xor")
  /\ matching_run_dir ideal_solver example_model 1 unknown_options empty_world
     = Raise AssertionError.
Proof.
  destruct (matching_run_dir_unknown_combination ideal_solver example_model
              unknown_options 0) as [Hrun Hnone].
  - discriminate.
  - discriminate.
  - split.
    + apply (Hrun long_spinup 0%nat [example_job 1000 0]).
      * exact (contiguous_length _ _ _ (contiguous_chain_world "spinup" [(1000, 0%Q)])).
      * reflexivity.
    + apply Hnone.
      * exact (contiguous_length _ _ _ (contiguous_empty_world "spinup")).
      * reflexivity.
Defined.

Lemma real_years_missing_record_witness :
  real_years (RunDir "spinup" 1) true lost_record
  = Raise (JobOptionFileError (RunDir "spinup" 0)).
Proof.
  apply (real_years_missing_record "spinup" lost_record 1 0).
  - lia.
  - reflexivity.
  - intros m Hm. assert (m = 1%nat) as -> by lia.
    exists (example_job 3 0). reflexivity.
Defined.

Lemma trajectory_is_loaded_from_one_job_witness :
  exists w',
    _trajectory_with_load_function ideal_solver or_model Z
      (fun d t => ret (two_values d t)) (RunDir "spinup" 0) [] (Some ["po4"; "dop"])
      long_spinup
    = Ok ([("po4", [1; 2]); ("dop", [1; 2])], w')
    /\ submitted w' = [TmpDir 0]
    /\ removed w' = [TmpDir 0]
    /\ jobs w' !! TmpDir 0 = None.
Proof.
  destruct (trajectory_is_loaded_from_one_job ideal_solver or_model Z
              (fun d t => ret (two_values d t)) two_values
              (fun d t w => eq_refl) ["po4"; "dop"] (RunDir "spinup" 0) []
              (example_job 1000 0) long_spinup)
    as (w' & Ht & Hs & _ & Hr & Hj & _).
  - discriminate.
  - apply NoDup_cons. split; [|apply NoDup_singleton].
    intros H. apply list_elem_of_singleton in H. discriminate.
  - repeat constructor.
  - reflexivity.
  - exists w'. repeat split; assumption.
Defined.

Lemma trajectory_of_repeated_tracer_fails_witness :
  _trajectory_with_load_function ideal_solver or_model Z
    (fun d t => ret (two_values d t)) (RunDir "spinup" 0) [] (Some ["po4"; "po4"])
    long_spinup
  = Raise AssertionError.
Proof.
  apply (trajectory_of_repeated_tracer_fails ideal_solver or_model Z
           (fun d t => ret (two_values d t)) two_values
           (fun d t w => eq_refl) ["po4"; "po4"] (RunDir "spinup" 0) []
           (example_job 1000 0) long_spinup).
  - intros H. apply NoDup_cons in H as [H _]. apply H. left.
  - repeat constructor.
  - reflexivity.
Defined.

Lemma unpack_concatenation_round_trip_witness :
  unpack_concatenation Z ["dop"; "po4"] [0; 2; 3]%nat [[1; 10]; [2; 20]; [3; 30]] []
    empty_world
  = Ok ([("dop", [[1; 10]; [2; 20]]); ("po4", [[3; 30]])], empty_world).
Proof.
  apply (unpack_concatenation_round_trip ["dop"; "po4"] [[7; 8]; [9]]
           [[[1; 10]; [2; 20]]; [[3; 30]]] empty_world).
  - apply NoDup_cons. split; [|apply NoDup_singleton].
    intros H. apply list_elem_of_singleton in H. discriminate.
  - reflexivity.
  - reflexivity.
Defined.

Lemma start_all_records_every_point_witness :
  exists r w',
    start_all ideal_solver derivative_model example_dirname 2 false 2 [1; 2]%float
      [1; 1]%float "derivative" (RunDir "spinup" 0) example_job_options
      [example_point] [] spinup_done
    = Ok (r, w')
    /\ tuple_dict_get example_point r = Some example_pd.
Proof.
  exists [(example_point, example_pd)], after_first_start.
  assert (H : start_all ideal_solver derivative_model example_dirname 2 false 2
                [1; 2]%float [1; 1]%float "derivative" (RunDir "spinup" 0)
                example_job_options [example_point] [] spinup_done
              = Ok ([(example_point, example_pd)], after_first_start)).
  { vm_compute. reflexivity. }
  split; [exact H|].
  destruct (proj1 (start_all_records_every_point ideal_solver derivative_model
                     example_dirname 2 false 2 [1; 2]%float [1; 1]%float "derivative"
                     (RunDir "spinup" 0) example_job_options [example_point] []
                     _ _ _ H)
              example_point) as (x' & Hin & _ & Hget).
  - left.
  - reflexivity.
  - apply list_elem_of_singleton in Hin. subst x'. exact Hget.
Defined.
